(** * LoRa Cloud geolocation integration (internal/integration/loracloud)

    A shallow embedding of [loracloud.go]: the uplink handler, the per-device
    geolocation buffer update, the strategy orchestrator and its resolver
    helpers, the fine-timestamp filter and the two object extractors.

    Conventions of the embedding:
    - a byte is an 8-bit [Z], a Go [[]byte] a [list Z];
    - Go numbers from decoded JSON ([float64]) are rationals [Q];
      [int(x)] truncates toward zero;
    - a function returning [(T, error)] returns [res T];
    - I/O (key/value store, resolver client, integration sink, error logs)
      goes through a small state monad over a [world] holding the store and
      the trace of I/O events. What the collaborators answer is given by an
      [env] record. Debug-level logging and the duration metrics are not
      modelled. *)

From Stdlib Require Import ZArith QArith List String Ascii Bool Lia.
Import ListNotations.
Open Scope Z_scope.
Set Warnings "-register-all".

(* ------------------------------------------------------------------ *)
(** ** Go data *)

Definition bytes := list Z.

(** Errors as values: the sentinel [geolocation.ErrNoLocation], a plain
    error message, and [errors.Wrap(cause, msg)]. *)
Inductive error : Type :=
| ErrNoLocation
| ErrString (msg : string)
| ErrWrap (msg : string) (cause : error).

(** [err == geolocation.ErrNoLocation]: identity with the sentinel. *)
Definition is_ErrNoLocation (e : error) : bool :=
  match e with ErrNoLocation => true | _ => false end.

(** Result of a Go function returning [(T, error)]. *)
Inductive res (A : Type) : Type :=
| ok (a : A)
| err (e : error).
Arguments ok {A} a.
Arguments err {A} e.

(** Go's built-in [copy(dst, src)]: overwrites the first
    [min(len(dst), len(src))] elements of [dst]. *)
Fixpoint go_copy (dst src : list Z) : list Z :=
  match dst, src with
  | d :: ds, s :: ss => s :: go_copy ds ss
  | _, [] => dst
  | [], _ => []
  end.

(** [lorawan.EUI64] is a [[8]byte]. *)
Definition eui64_of (b : bytes) : bytes := go_copy (repeat 0 8) b.

(** common.LocationSource *)
Inductive LocationSource : Type :=
| UNKNOWN | GPS | CONFIG
| GEO_RESOLVER_TDOA | GEO_RESOLVER_RSSI | GEO_RESOLVER_GNSS | GEO_RESOLVER_WIFI.

(** common.Location *)
Module Location.
Record t : Type := mk {
  Latitude : Q;
  Longitude : Q;
  Altitude : Q;
  Source : LocationSource;
  Accuracy : Z
}.
(** The Go zero value [common.Location{}]. *)
Definition zero : t := mk 0 0 0 UNKNOWN 0.
End Location.

(** The [fine_timestamp] oneof of gw.UplinkRXInfo. *)
Inductive fine_timestamp : Type :=
| EncryptedFineTimestamp (aes_key_index : Z) (encrypted_ns : bytes)
| PlainFineTimestamp (nanos : Z).

(** gw.UplinkRXInfo (the fields the integration reads). *)
Module UplinkRXInfo.
Record t : Type := mk {
  GatewayId : bytes;
  UplinkId : bytes;
  Rssi : Z;
  LoraSnr : Q;
  Location : Location.t;
  FineTimestamp : option fine_timestamp
}.
End UplinkRXInfo.

(** One frame: the receptions of one uplink, [[]*gw.UplinkRXInfo]. *)
Definition frame := list UplinkRXInfo.t.

(** Decoded JSON values, as [encoding/json] produces them into an
    [interface{}]: null, bool, float64, string, [[]interface{}] and
    [map[string]interface{}] (a map: keys are distinct). *)
Inductive json : Type :=
| JNull
| JBool (b : bool)
| JNumber (x : Q)
| JString (s : string)
| JArray (l : list json)
| JObject (m : list (string * json)).

(** Map lookup [m[k]]; [None] is the "not ok" of [v, ok := m[k]]. *)
Fixpoint map_lookup (k : string) (m : list (string * json)) : option json :=
  match m with
  | [] => None
  | (k', v) :: m' => if String.eqb k k' then Some v else map_lookup k m'
  end.

(** The [ObjectJson] string of an uplink as [json.Unmarshal] into a
    [map[string]interface{}] sees it: the empty string (never decoded), a
    string the decoder rejects, or the decoded top-level map (a JSON
    [null] decodes to the empty map). *)
Inductive object_json : Type :=
| ObjectEmpty
| ObjectInvalid (reason : string)
| ObjectDecoded (m : list (string * json)).

(** pb.UplinkEvent *)
Module UplinkEvent.
Record t : Type := mk {
  ApplicationId : Z;
  ApplicationName : string;
  DeviceName : string;
  DevEui : bytes;
  FCnt : Z;
  RxInfo : frame;
  ObjectJson : object_json;
  Tags : list (string * string)
}.
End UplinkEvent.

(** pb.LocationEvent *)
Module LocationEvent.
Record t : Type := mk {
  ApplicationId : Z;
  ApplicationName : string;
  DeviceName : string;
  DevEui : bytes;
  Tags : list (string * string);
  Location : option Location.t;
  UplinkIds : list bytes;
  FCnt : Z
}.
End LocationEvent.

(** geolocation.WifiAccessPoint *)
Record WifiAccessPoint : Type := mkWifiAccessPoint {
  MacAddress : list Z;  (* [6]byte *)
  SignalStrength : Z
}.

(** Config *)
Record Config : Type := mkConfig {
  Geolocation : bool;
  GeolocationToken : string;
  GeolocationBufferTTL : Z;
  GeolocationMinBufferSize : Z;
  GeolocationTDOA : bool;
  GeolocationRSSI : bool;
  GeolocationGNSS : bool;
  GeolocationGNSSPayloadField : string;
  GeolocationGNSSUseRxTime : bool;
  GeolocationWifi : bool;
  GeolocationWifiPayloadField : string
}.

(* ------------------------------------------------------------------ *)
(** ** base64.StdEncoding.DecodeString *)

Definition b64_value (c : ascii) : option Z :=
  let n := Z.of_nat (nat_of_ascii c) in
  if (65 <=? n) && (n <=? 90) then Some (n - 65)
  else if (97 <=? n) && (n <=? 122) then Some (n - 71)
  else if (48 <=? n) && (n <=? 57) then Some (n + 4)
  else if n =? 43 then Some 62
  else if n =? 47 then Some 63
  else None.

Definition is_pad (c : ascii) : bool := Ascii.eqb c "="%char.

(** Quanta of four characters; [xx==] and [xxx=] only as the last one. *)
Fixpoint b64_quanta (cs : list ascii) : option bytes :=
  match cs with
  | [] => Some []
  | a :: b :: c :: d :: rest =>
      match b64_value a, b64_value b with
      | Some va, Some vb =>
          let b0 := Z.lor (Z.shiftl va 2) (Z.shiftr vb 4) in
          match rest, is_pad c, is_pad d with
          | [], true, true => Some [b0]
          | [], false, true =>
              match b64_value c with
              | Some vc =>
                  Some [b0; Z.land (Z.lor (Z.shiftl vb 4) (Z.shiftr vc 2)) 255]
              | None => None
              end
          | _, _, _ =>
              match b64_value c, b64_value d, b64_quanta rest with
              | Some vc, Some vd, Some tl =>
                  Some (b0 :: Z.land (Z.lor (Z.shiftl vb 4) (Z.shiftr vc 2)) 255
                           :: Z.land (Z.lor (Z.shiftl vc 6) vd) 255 :: tl)
              | _, _, _ => None
              end
          end
      | _, _ => None
      end
  | _ => None
  end.

(** The decoder skips line breaks ([\r], [\n]). *)
Definition base64_decode (s : string) : option bytes :=
  b64_quanta
    (filter (fun c => negb (Ascii.eqb c (ascii_of_nat 10) || Ascii.eqb c (ascii_of_nat 13)))
       (list_ascii_of_string s)).

(* ------------------------------------------------------------------ *)
(** ** Object extractors *)

(** getBytesFromJSONObject *)
Definition getBytesFromJSONObject (field : string) (jsonStr : object_json) : res bytes :=
  match jsonStr with
  | ObjectEmpty => ok []
  | ObjectInvalid r => err (ErrWrap "unmarshal json error" (ErrString r))
  | ObjectDecoded v =>
      match map_lookup field v with
      | None => ok []
      | Some (JString str) =>
          match base64_decode str with
          | Some b => ok b
          | None => err (ErrWrap "base64 decode error" (ErrString "illegal base64 data"))
          end
      | Some _ => err (ErrString "expected string")
      end
  end.

(** [int(ss)] for a float64: truncation toward zero. *)
Definition go_int_of_float (x : Q) : Z := Z.quot (Qnum x) (Zpos (Qden x)).

(** Body of the loop over the access points. *)
Definition wifiAccessPointOfJSON (apv : json) : res WifiAccessPoint :=
  match apv with
  | JObject vvv =>
      match map_lookup "macAddress" vvv with
      | Some (JString bssid) =>
          match base64_decode bssid with
          | Some b =>
              let mac := go_copy (repeat 0 6) b in
              match map_lookup "signalStrength" vvv with
              | Some (JNumber ss) => ok (mkWifiAccessPoint mac (go_int_of_float ss))
              | _ => err (ErrString "signalStrength must be a float64")
              end
          | None => err (ErrWrap "base64 decode error" (ErrString "illegal base64 data"))
          end
      | _ => err (ErrString "macAddress must be a string")
      end
  | _ => err (ErrString "expected key / value map")
  end.

Fixpoint wifiAccessPointsOfList (aps : list json) : res (list WifiAccessPoint) :=
  match aps with
  | [] => ok []
  | a :: rest =>
      match wifiAccessPointOfJSON a with
      | err e => err e
      | ok ap =>
          match wifiAccessPointsOfList rest with
          | err e => err e
          | ok out => ok (ap :: out)
          end
      end
  end.

(** getWifiAccessPointsFromJSONObject *)
Definition getWifiAccessPointsFromJSONObject (field : string) (jsonStr : object_json)
  : res (list WifiAccessPoint) :=
  match jsonStr with
  | ObjectEmpty => ok []
  | ObjectInvalid r => err (ErrWrap "unmarshal json error" (ErrString r))
  | ObjectDecoded v =>
      match map_lookup field v with
      | None => ok []
      | Some (JArray aps) => wifiAccessPointsOfList aps
      | Some _ => err (ErrString "field content must be a list of objects")
      end
  end.

(* ------------------------------------------------------------------ *)
(** ** filterOnFineTimestamp *)

(** [GetFineTimestamp() != nil]: either member of the oneof is set. *)
Definition has_fine_timestamp (rx : UplinkRXInfo.t) : bool :=
  match UplinkRXInfo.FineTimestamp rx with Some _ => true | None => false end.

(** Inner loop: [f = append(f, geolocBuffer[i][j])] for timestamped ones. *)
Fixpoint filter_frame (f : frame) (rxs : frame) : frame :=
  match rxs with
  | [] => f
  | rx :: rest =>
      filter_frame (if has_fine_timestamp rx then f ++ [rx] else f) rest
  end.

(** Outer loop: [out = append(out, f)] when [len(f) >= minPerFrame]. *)
Fixpoint filter_frames (minPerFrame : Z) (out : list frame) (buf : list frame)
  : list frame :=
  match buf with
  | [] => out
  | fr :: rest =>
      let f := filter_frame [] fr in
      filter_frames minPerFrame
        (if Z.of_nat (List.length f) >=? minPerFrame then out ++ [f] else out) rest
  end.

Definition filterOnFineTimestamp (geolocBuffer : list frame) (minPerFrame : Z)
  : list frame :=
  filter_frames minPerFrame [] geolocBuffer.

(* ------------------------------------------------------------------ *)
(** ** Collaborators and the I/O monad *)

(** The calls the integration makes on the geolocation client. *)
Inductive request : Type :=
| TDOASingleFrame (rxInfo : frame)
| TDOAMultiFrame (frames : list frame)
| RSSISingleFrame (rxInfo : frame)
| RSSIMultiFrame (frames : list frame)
| GNSSLR1110SingleFrame (rxInfo : frame) (useRxTime : bool) (pl : bytes)
| WifiTDOASingleFrame (rxInfo : frame) (aps : list WifiAccessPoint).

(** Observable I/O, in the order it happens. *)
Inductive io_event : Type :=
| EvGetGeolocBuffer (devEUI : bytes) (ttl : Z)
| EvSaveGeolocBuffer (devEUI : bytes) (buf : list frame) (ttl : Z)
| EvResolve (req : request)
| EvHandleLocationEvent (ev : LocationEvent.t)
| EvLogError (msg : string).

(** What the collaborators answer during one call: the store's read and
    write errors, the client's [(common.Location, error)] for a request,
    and the sink's [HandleLocationEvent] error. *)
Record env : Type := mkEnv {
  get_error : option error;
  save_error : option error;
  resolve : request -> Location.t * option error;
  sink : LocationEvent.t -> option error
}.

(** The key/value store (device EUI to buffer and its TTL) and the trace. *)
Record world : Type := mkWorld {
  kv : bytes -> option (list frame * Z);
  trace : list io_event
}.

Definition M (A : Type) : Type := world -> res A * world.

Definition ret {A} (a : A) : M A := fun w => (ok a, w).

Definition bind {A B} (m : M A) (k : A -> M B) : M B :=
  fun w =>
    let (r, w') := m w in
    match r with
    | ok a => k a w'
    | err e => (err e, w')
    end.

Definition throw {A} (e : error) : M A := fun w => (err e, w).

Definition emit (ev : io_event) : M unit :=
  fun w => (ok tt, mkWorld (kv w) (trace w ++ [ev])).

(** [if err != nil { return errors.Wrap(err, msg) }] *)
Definition wrapM {A} (msg : string) (m : M A) : M A :=
  fun w =>
    let (r, w') := m w in
    match r with
    | ok a => (ok a, w')
    | err e => (err (ErrWrap msg e), w')
    end.

Notation "x <- m ;; k" := (bind m (fun x => k))
  (at level 61, m at next level, right associativity).
Notation "m ;; k" := (bind m (fun _ => k)) (at level 61, right associativity).

Definition kv_set (s : bytes -> option (list frame * Z)) (k : bytes)
  (v : list frame * Z) : bytes -> option (list frame * Z) :=
  fun k' => if list_eq_dec Z.eq_dec k' k then Some v else s k'.

(** Modelled from the spec: [GetGeolocBuffer], the storage read of the
    buffer (not among the sources). Returns the stored buffer, empty when
    absent or expired; a TTL of 0 makes the buffer single-frame only, so
    nothing is read back. A store error is returned. *)
Definition GetGeolocBuffer (E : env) (devEUI : bytes) (ttl : Z) : M (list frame) :=
  fun w =>
    let w1 := mkWorld (kv w) (trace w ++ [EvGetGeolocBuffer devEUI ttl]) in
    match get_error E with
    | Some e => (err e, w1)
    | None =>
        (ok (if ttl =? 0 then []
             else match kv w devEUI with Some (b, _) => b | None => [] end), w1)
    end.

(** Modelled from the spec: [SaveGeolocBuffer], the storage write of the
    buffer (not among the sources). Writes the buffer with its TTL under
    the device key; saving an empty sequence is a no-op. A store error is
    returned and nothing is written. *)
Definition SaveGeolocBuffer (E : env) (devEUI : bytes) (items : list frame) (ttl : Z)
  : M unit :=
  fun w =>
    match items with
    | [] => (ok tt, w)
    | _ =>
        let tr := trace w ++ [EvSaveGeolocBuffer devEUI items ttl] in
        match save_error E with
        | Some e => (err e, mkWorld (kv w) tr)
        | None => (ok tt, mkWorld (kv_set (kv w) devEUI (items, ttl)) tr)
        end
    end.

(** Modelled from the spec: TTL expiry of a buffer entry in the store. *)
Definition expire (devEUI : bytes) (w : world) : world :=
  mkWorld (fun k => if list_eq_dec Z.eq_dec k devEUI then None else kv w k) (trace w).

(** A client call: [(common.Location, error)] from the resolver. *)
Definition client_call (E : env) (req : request) : M (Location.t * option error) :=
  emit (EvResolve req) ;; ret (resolve E req).

(** [ii.HandleLocationEvent(ctx, vars, ev)]: the sink's returned error. *)
Definition sinkHandleLocationEvent (E : env) (ev : LocationEvent.t) : M (option error) :=
  emit (EvHandleLocationEvent ev) ;; ret (sink E ev).

(* ------------------------------------------------------------------ *)
(** ** The integration *)

(** updateGeolocBuffer *)
Definition updateGeolocBuffer (c : Config) (E : env) (devEUI : bytes)
  (pl : UplinkEvent.t) : M (list frame) :=
  geolocBuffer <- wrapM "get geoloc buffer error"
                    (GetGeolocBuffer E devEUI (GeolocationBufferTTL c)) ;;
  let geolocBuffer :=
    if (3 <=? List.length (UplinkEvent.RxInfo pl))%nat
    then geolocBuffer ++ [UplinkEvent.RxInfo pl] else geolocBuffer in
  (if negb (List.length geolocBuffer =? 0)%nat
   then wrapM "save geoloc buffer error"
          (SaveGeolocBuffer E devEUI geolocBuffer (GeolocationBufferTTL c))
   else ret tt) ;;
  ret geolocBuffer.

(** The shared tail of the TDOA, RSSI and GNSS helpers. *)
Definition resolved (r : Location.t * option error) : M (option Location.t) :=
  let (loc, e) := r in
  match e with
  | None => ret (Some loc)
  | Some e =>
      if is_ErrNoLocation e then ret None
      else throw (ErrWrap "geolocation error" e)
  end.

(** tdoaGeolocation *)
Definition tdoaGeolocation (E : env) (geolocBuffer : list frame)
  : M (option Location.t) :=
  r <- client_call E
         (if (List.length geolocBuffer =? 1)%nat
          then TDOASingleFrame (nth 0 geolocBuffer [])
          else TDOAMultiFrame geolocBuffer) ;;
  resolved r.

(** rssiGeolocation *)
Definition rssiGeolocation (E : env) (geolocBuffer : list frame)
  : M (option Location.t) :=
  r <- client_call E
         (if (List.length geolocBuffer =? 1)%nat
          then RSSISingleFrame (nth 0 geolocBuffer [])
          else RSSIMultiFrame geolocBuffer) ;;
  resolved r.

(** gnssLR1110Geolocation *)
Definition gnssLR1110Geolocation (c : Config) (E : env) (rxInfo : frame) (pl : bytes)
  : M (option Location.t) :=
  r <- client_call E (GNSSLR1110SingleFrame rxInfo (GeolocationGNSSUseRxTime c) pl) ;;
  resolved r.

(** wifiTDOAGeolocation: a non-sentinel error is not returned, and [&loc]
    is returned as it is. *)
Definition wifiTDOAGeolocation (E : env) (rxInfo : frame) (aps : list WifiAccessPoint)
  : M (option Location.t) :=
  r <- client_call E (WifiTDOASingleFrame rxInfo aps) ;;
  let (loc, e) := r in
  match e with
  | Some e => if is_ErrNoLocation e then ret None else ret (Some loc)
  | None => ret (Some loc)
  end.

(** The nested loops collecting [GetUplinkId()] over frames and receptions. *)
Definition collectUplinkIDs (frames : list frame) : list bytes :=
  flat_map (fun f => map UplinkRXInfo.UplinkId f) frames.

(** [geolocation], lines 224-243: the RSSI block and the final return. *)
Definition geolocationRSSIBlock (c : Config) (E : env) (geolocBuffer : list frame)
  : M (list bytes * option Location.t) :=
  if GeolocationRSSI c then
    if (List.length geolocBuffer =? 0)%nat
       || (Z.of_nat (List.length geolocBuffer) <? GeolocationMinBufferSize c)
    then ret ([], None)
    else
      let uplinkIDs := collectUplinkIDs geolocBuffer in
      loc <- rssiGeolocation E geolocBuffer ;;
      ret (uplinkIDs, loc)
  else ret ([], None).

(** [geolocation], lines 203-222: the TDOA block, falling through to RSSI. *)
Definition geolocationTDOABlock (c : Config) (E : env) (geolocBuffer : list frame)
  : M (list bytes * option Location.t) :=
  if GeolocationTDOA c then
    let tdoaFiltered := filterOnFineTimestamp geolocBuffer 3 in
    if (List.length tdoaFiltered =? 0)%nat
       || (Z.of_nat (List.length tdoaFiltered) <? GeolocationMinBufferSize c)
    then geolocationRSSIBlock c E geolocBuffer
    else
      let uplinkIDs := collectUplinkIDs tdoaFiltered in
      loc <- tdoaGeolocation E tdoaFiltered ;;
      ret (uplinkIDs, loc)
  else geolocationRSSIBlock c E geolocBuffer.

(** [geolocation], lines 180-201: the WiFi block, falling through to TDOA. *)
Definition geolocationWifiBlock (c : Config) (E : env) (geolocBuffer : list frame)
  (pl : UplinkEvent.t) : M (list bytes * option Location.t) :=
  if GeolocationWifi c then
    match getWifiAccessPointsFromJSONObject (GeolocationWifiPayloadField c)
            (UplinkEvent.ObjectJson pl) with
    | err _ =>
        emit (EvLogError "integration/loracloud: get wifi access-points from object error") ;;
        ret ([], None)
    | ok [] => geolocationTDOABlock c E geolocBuffer
    | ok wifiAPs =>
        loc <- wifiTDOAGeolocation E (UplinkEvent.RxInfo pl) wifiAPs ;;
        ret ([], loc)
    end
  else geolocationTDOABlock c E geolocBuffer.

(** geolocation: the GNSS block (lines 157-178), falling through to WiFi. *)
Definition geolocation (c : Config) (E : env) (devEUI : bytes) (geolocBuffer : list frame)
  (pl : UplinkEvent.t) : M (list bytes * option Location.t) :=
  if GeolocationGNSS c then
    match getBytesFromJSONObject (GeolocationGNSSPayloadField c) (UplinkEvent.ObjectJson pl) with
    | err _ =>
        emit (EvLogError "integration/loracloud: get gnss bytes from object error") ;;
        ret ([], None)
    | ok [] => geolocationWifiBlock c E geolocBuffer pl
    | ok gnssPL =>
        loc <- gnssLR1110Geolocation c E (UplinkEvent.RxInfo pl) gnssPL ;;
        ret ([], loc)
    end
  else geolocationWifiBlock c E geolocBuffer pl.

(** HandleUplinkEvent *)
Definition HandleUplinkEvent (c : Config) (E : env) (pl : UplinkEvent.t) : M unit :=
  let devEUI := eui64_of (UplinkEvent.DevEui pl) in
  if Geolocation c then
    geolocBuffer <- wrapM "update geolocation buffer error"
                      (updateGeolocBuffer c E devEUI pl) ;;
    r <- wrapM "geolocation error" (geolocation c E devEUI geolocBuffer pl) ;;
    let (uplinkIDs, loc) := r in
    match loc with
    | Some l =>
        let fCnt := match uplinkIDs with [] => UplinkEvent.FCnt pl | _ => 0 end in
        e <- sinkHandleLocationEvent E
               (LocationEvent.mk (UplinkEvent.ApplicationId pl) (UplinkEvent.ApplicationName pl)
                  (UplinkEvent.DeviceName pl) (UplinkEvent.DevEui pl) (UplinkEvent.Tags pl)
                  (Some l) uplinkIDs fCnt) ;;
        match e with
        | Some _ => emit (EvLogError "integration/loracloud: geolocation error")
        | None => ret tt
        end
    | None => ret tt
    end
  else ret tt.

(* ------------------------------------------------------------------ *)
(** ** Specification-side definitions

    These follow the spec's words; the theorems compare them with the
    embedding above. *)

(** Stored worlds reachable from an empty store through uplinks (any
    configuration, any collaborator answers) and TTL expiry. *)
Inductive reachable : world -> Prop :=
| reachable_empty tr : reachable (mkWorld (fun _ => None) tr)
| reachable_uplink c E pl w :
    reachable w -> reachable (snd (HandleUplinkEvent c E pl w))
| reachable_expire dev w :
    reachable w -> reachable (expire dev w).

(** The I/O events of one [HandleUplinkEvent] call. *)
Definition uplink_events (c : Config) (E : env) (pl : UplinkEvent.t) (w : world)
  : list io_event :=
  skipn (List.length (trace w)) (trace (snd (HandleUplinkEvent c E pl w))).

(** filter_on_fine_timestamp as the spec words it. *)
Definition filter_on_fine_timestamp_spec (buf : list frame) (minPerFrame : Z)
  : list frame :=
  filter (fun f => minPerFrame <=? Z.of_nat (List.length f))
    (map (filter has_fine_timestamp) buf).

(** The in-order flattened concatenation of [uplink_id] over frames. *)
Definition flattened_uplink_ids (frames : list frame) : list bytes :=
  List.concat (map (map UplinkRXInfo.UplinkId) frames).

(** The strategies, after the spec's design note. *)
Inductive strategy : Type := GNSS | Wifi | TDOA | RSSI.

Definition is_ok {A} (r : res A) : bool := match r with ok _ => true | err _ => false end.

Definition nonempty_ok {A} (r : res (list A)) : bool :=
  match r with ok (_ :: _) => true | _ => false end.

(** A strategy qualifies: enabled and its data precondition met. *)
Definition gnss_qualifies (c : Config) (pl : UplinkEvent.t) : bool :=
  GeolocationGNSS c
  && nonempty_ok (getBytesFromJSONObject (GeolocationGNSSPayloadField c) (UplinkEvent.ObjectJson pl)).

Definition wifi_qualifies (c : Config) (pl : UplinkEvent.t) : bool :=
  GeolocationWifi c
  && nonempty_ok (getWifiAccessPointsFromJSONObject (GeolocationWifiPayloadField c)
                    (UplinkEvent.ObjectJson pl)).

Definition tdoa_qualifies (c : Config) (buf : list frame) : bool :=
  GeolocationTDOA c
  && (Z.max 1 (GeolocationMinBufferSize c)
        <=? Z.of_nat (List.length (filterOnFineTimestamp buf 3))).

Definition rssi_qualifies (c : Config) (buf : list frame) : bool :=
  GeolocationRSSI c
  && (Z.max 1 (GeolocationMinBufferSize c) <=? Z.of_nat (List.length buf)).

(** An enabled extractor fails. *)
Definition gnss_extract_fails (c : Config) (pl : UplinkEvent.t) : bool :=
  GeolocationGNSS c
  && negb (is_ok (getBytesFromJSONObject (GeolocationGNSSPayloadField c)
                    (UplinkEvent.ObjectJson pl))).

Definition wifi_extract_fails (c : Config) (pl : UplinkEvent.t) : bool :=
  GeolocationWifi c
  && negb (is_ok (getWifiAccessPointsFromJSONObject (GeolocationWifiPayloadField c)
                    (UplinkEvent.ObjectJson pl))).

Definition gnss_msg : string := "integration/loracloud: get gnss bytes from object error".
Definition wifi_msg : string := "integration/loracloud: get wifi access-points from object error".

(** Evaluation in priority order GNSS, WiFi, TDOA, RSSI, stopping at the
    first strategy that qualifies or at the first enabled extractor that
    fails. *)
Inductive selection : Type :=
| SelAbort (msg : string)
| SelNone
| SelAttempt (s : strategy).

Definition select_strategy (c : Config) (buf : list frame) (pl : UplinkEvent.t) : selection :=
  if gnss_extract_fails c pl then SelAbort gnss_msg
  else if gnss_qualifies c pl then SelAttempt GNSS
  else if wifi_extract_fails c pl then SelAbort wifi_msg
  else if wifi_qualifies c pl then SelAttempt Wifi
  else if tdoa_qualifies c buf then SelAttempt TDOA
  else if rssi_qualifies c buf then SelAttempt RSSI
  else SelNone.

Definition ok_or_nil {A} (r : res (list A)) : list A :=
  match r with ok l => l | err _ => [] end.

(** The frames a buffered strategy sends to the resolver. *)
Definition frames_sent (s : strategy) (buf : list frame) : list frame :=
  match s with
  | TDOA => filterOnFineTimestamp buf 3
  | RSSI => buf
  | _ => []
  end.

(** The request the attempt of a strategy sends. *)
Definition request_for (s : strategy) (c : Config) (buf : list frame) (pl : UplinkEvent.t)
  : request :=
  match s with
  | GNSS =>
      GNSSLR1110SingleFrame (UplinkEvent.RxInfo pl) (GeolocationGNSSUseRxTime c)
        (ok_or_nil (getBytesFromJSONObject (GeolocationGNSSPayloadField c)
                      (UplinkEvent.ObjectJson pl)))
  | Wifi =>
      WifiTDOASingleFrame (UplinkEvent.RxInfo pl)
        (ok_or_nil (getWifiAccessPointsFromJSONObject (GeolocationWifiPayloadField c)
                      (UplinkEvent.ObjectJson pl)))
  | TDOA =>
      let fs := filterOnFineTimestamp buf 3 in
      if (List.length fs =? 1)%nat then TDOASingleFrame (nth 0 fs []) else TDOAMultiFrame fs
  | RSSI =>
      if (List.length buf =? 1)%nat then RSSISingleFrame (nth 0 buf []) else RSSIMultiFrame buf
  end.

(** How the attempt of a strategy reads the client's answer. *)
Definition outcome (s : strategy) (r : Location.t * option error) : res (option Location.t) :=
  let (loc, e) := r in
  match s, e with
  | _, None => ok (Some loc)
  | Wifi, Some e => if is_ErrNoLocation e then ok None else ok (Some loc)
  | _, Some e => if is_ErrNoLocation e then ok None else err (ErrWrap "geolocation error" e)
  end.

(** The frames a request carries (TDOA and RSSI requests). *)
Definition request_frames (req : request) : list frame :=
  match req with
  | TDOASingleFrame f | RSSISingleFrame f => [f]
  | TDOAMultiFrame fs | RSSIMultiFrame fs => fs
  | _ => []
  end.

Definition is_tdoa_request (req : request) : bool :=
  match req with TDOASingleFrame _ | TDOAMultiFrame _ => true | _ => false end.

Definition is_rssi_request (req : request) : bool :=
  match req with RSSISingleFrame _ | RSSIMultiFrame _ => true | _ => false end.

(** The buffer the update reads back and the one it hands on. *)
Definition stored_frames (c : Config) (w : world) (dev : bytes) : list frame :=
  if GeolocationBufferTTL c =? 0 then []
  else match kv w dev with Some (b, _) => b | None => [] end.

Definition updated_buffer (c : Config) (w : world) (dev : bytes) (pl : UplinkEvent.t)
  : list frame :=
  stored_frames c w dev
  ++ (if (3 <=? List.length (UplinkEvent.RxInfo pl))%nat then [UplinkEvent.RxInfo pl] else []).

Definition add_events (w : world) (evs : list io_event) : world :=
  mkWorld (kv w) (trace w ++ evs).

(** What the orchestrator does for a selection: log and stop, stop, or
    send the strategy's request and read the answer. *)
Definition run_selection (c : Config) (E : env) (buf : list frame) (pl : UplinkEvent.t)
  (sel : selection) : M (list bytes * option Location.t) :=
  fun w =>
    match sel with
    | SelAbort msg => (ok ([], None), add_events w [EvLogError msg])
    | SelNone => (ok ([], None), w)
    | SelAttempt s =>
        let req := request_for s c buf pl in
        let w1 := add_events w [EvResolve req] in
        match outcome s (resolve E req) with
        | ok loc => (ok (collectUplinkIDs (frames_sent s buf), loc), w1)
        | err e => (err e, w1)
        end
    end.

(** The location event the handler builds from a fix. *)
Definition location_event_of (pl : UplinkEvent.t) (uplinkIDs : list bytes) (l : Location.t)
  : LocationEvent.t :=
  LocationEvent.mk (UplinkEvent.ApplicationId pl) (UplinkEvent.ApplicationName pl)
    (UplinkEvent.DeviceName pl) (UplinkEvent.DevEui pl) (UplinkEvent.Tags pl)
    (Some l) uplinkIDs (match uplinkIDs with [] => UplinkEvent.FCnt pl | _ => 0 end).

Definition sink_log : string := "integration/loracloud: geolocation error".

(** The events after the buffer update, for a selection. *)
Definition selection_events (c : Config) (E : env) (buf : list frame) (pl : UplinkEvent.t)
  (sel : selection) : list io_event :=
  match sel with
  | SelAbort msg => [EvLogError msg]
  | SelNone => []
  | SelAttempt s =>
      let req := request_for s c buf pl in
      EvResolve req ::
      match outcome s (resolve E req) with
      | ok (Some l) =>
          let ev := location_event_of pl (collectUplinkIDs (frames_sent s buf)) l in
          EvHandleLocationEvent ev ::
          match sink E ev with Some _ => [EvLogError sink_log] | None => [] end
      | _ => []
      end
  end.

Definition is_buffer_event (ev : io_event) : bool :=
  match ev with EvGetGeolocBuffer _ _ | EvSaveGeolocBuffer _ _ _ => true | _ => false end.

Definition is_resolve_event (ev : io_event) : bool :=
  match ev with EvResolve _ => true | _ => false end.

Definition is_location_event (ev : io_event) : bool :=
  match ev with EvHandleLocationEvent _ => true | _ => false end.

(** The persisted buffers: never empty, every frame of length at least 3. *)
Definition store_ok (w : world) : Prop :=
  forall k b t, kv w k = Some (b, t) ->
    b <> [] /\ Forall (fun f : frame => (3 <= List.length f)%nat) b.

(* ------------------------------------------------------------------ *)
(** ** Test fixtures (after loracloud_test.go) *)

Definition antenna : Location.t :=
  Location.mk (1111 # 1000) (2222 # 1000) (3333 # 1000) UNKNOWN 0.

Definition rx_at (g : Z) (ft : option Z) : UplinkRXInfo.t :=
  UplinkRXInfo.mk (repeat g 8) [g] g ((10 * g + 1) # 10) antenna
    (option_map PlainFineTimestamp ft).

Definition rx3 : frame := [rx_at 1 (Some 111); rx_at 2 (Some 222); rx_at 3 (Some 333)].

Definition resolver_fix (src : LocationSource) : Location.t :=
  Location.mk (1123 # 1000) (2123 # 1000) (3123 # 1000) src 10.

Definition env_answer (answer : Location.t * option error) : env :=
  mkEnv None None (fun _ => answer) (fun _ => None).

Definition world0 : world := mkWorld (fun _ => None) [].

Definition test_uplink (rxs : frame) (obj : object_json) : UplinkEvent.t :=
  UplinkEvent.mk 1 "test-app" "test-device" [1; 2; 3; 4; 5; 6; 7; 8] 10 rxs obj [].

Definition test_location_event (loc : Location.t) (ids : list bytes) (fcnt : Z)
  : LocationEvent.t :=
  LocationEvent.mk 1 "test-app" "test-device" [1; 2; 3; 4; 5; 6; 7; 8] []
    (Some loc) ids fcnt.

(** config {geolocation, tdoa, rssi, gnss, wifi} with a TTL and a minimum. *)
Definition cfg (ttl minbuf : Z) (tdoa rssi gnss wifi : bool) : Config :=
  mkConfig true "" ttl minbuf tdoa rssi gnss "lr1110_gnss" false wifi "wifi_aps".

Definition rx3_two_ts : frame := [rx_at 1 (Some 111); rx_at 2 (Some 222); rx_at 3 None].

Definition rx3_old : frame :=
  [UplinkRXInfo.mk (repeat 1 8) [4] 1 ((10 * 1 + 1) # 10) antenna (Some (PlainFineTimestamp 444));
   UplinkRXInfo.mk (repeat 2 8) [5] 2 ((10 * 2 + 1) # 10) antenna (Some (PlainFineTimestamp 555));
   UplinkRXInfo.mk (repeat 3 8) [6] 3 ((10 * 3 + 1) # 10) antenna (Some (PlainFineTimestamp 666))].

Definition world_old : world :=
  mkWorld (kv_set (fun _ => None) [1; 2; 3; 4; 5; 6; 7; 8] ([rx3_old], 60)) [].

Definition wifi_aps_json : json :=
  JArray [JObject [("macAddress"%string, JString "AQEBAQEB"); ("signalStrength"%string, JNumber (-10))];
          JObject [("macAddress"%string, JString "AgICAgIC"); ("signalStrength"%string, JNumber (-20))];
          JObject [("macAddress"%string, JString "AwMDAwMD"); ("signalStrength"%string, JNumber (-30))]].

(** Inputs on which an enabled extractor fails. *)
Definition obj_gnss_mismatch_with_wifi : object_json :=
  ObjectDecoded [("lr1110_gnss"%string, JNumber 5); ("wifi_aps"%string, wifi_aps_json)].

Definition obj_wifi_not_a_list : object_json :=
  ObjectDecoded [("wifi_aps"%string, JString "AQEBAQEB")].

Definition obj_gnss_bad_base64 : object_json :=
  ObjectDecoded [("lr1110_gnss"%string, JString "@@@@")].

(** A resolver answering with a non-2xx status: the client returns the
    zero location and an error. *)
Definition env_http_500 : env :=
  env_answer (Location.zero, Some (ErrString "expected 200, got: 500")).

(** A four-byte and an eight-byte MAC. *)
Definition aps_odd_macs : list json :=
  [JObject [("macAddress"%string, JString "AQIDBA=="); ("signalStrength"%string, JNumber (-10))];
   JObject [("macAddress"%string, JString "AQIDBAUGBwg="); ("signalStrength"%string, JNumber (-205 # 10))]].

Definition test_eui : bytes := [1; 2; 3; 4; 5; 6; 7; 8].

(** S2: single-frame TDOA. *)
Example scenario_single_tdoa :
  HandleUplinkEvent (cfg 0 0 true false false false)
    (env_answer (resolver_fix GEO_RESOLVER_TDOA, None))
    (test_uplink rx3 ObjectEmpty) world0
  = (ok tt, mkWorld (kv_set (fun _ => None) [1; 2; 3; 4; 5; 6; 7; 8] ([rx3], 0))
       [EvGetGeolocBuffer [1; 2; 3; 4; 5; 6; 7; 8] 0;
        EvSaveGeolocBuffer [1; 2; 3; 4; 5; 6; 7; 8] [rx3] 0;
        EvResolve (TDOASingleFrame rx3);
        EvHandleLocationEvent
          (test_location_event (resolver_fix GEO_RESOLVER_TDOA) [[1]; [2]; [3]] 0)]).
Proof. reflexivity. Qed.

(** S4: only two fine timestamps, so RSSI. *)
Example scenario_fallback_rssi :
  trace (snd (HandleUplinkEvent (cfg 0 0 true true false false)
    (env_answer (resolver_fix GEO_RESOLVER_RSSI, None))
    (test_uplink rx3_two_ts ObjectEmpty) world0))
  = [EvGetGeolocBuffer [1; 2; 3; 4; 5; 6; 7; 8] 0;
     EvSaveGeolocBuffer [1; 2; 3; 4; 5; 6; 7; 8] [rx3_two_ts] 0;
     EvResolve (RSSISingleFrame rx3_two_ts);
     EvHandleLocationEvent
       (test_location_event (resolver_fix GEO_RESOLVER_RSSI) [[1]; [2]; [3]] 0)].
Proof. reflexivity. Qed.

(** S5: multi-frame TDOA over a stored frame and the current one. *)
Example scenario_multi_tdoa :
  trace (snd (HandleUplinkEvent (cfg 60 2 true false false false)
    (env_answer (resolver_fix GEO_RESOLVER_TDOA, None))
    (test_uplink rx3 ObjectEmpty) world_old))
  = [EvGetGeolocBuffer [1; 2; 3; 4; 5; 6; 7; 8] 60;
     EvSaveGeolocBuffer [1; 2; 3; 4; 5; 6; 7; 8] [rx3_old; rx3] 60;
     EvResolve (TDOAMultiFrame [rx3_old; rx3]);
     EvHandleLocationEvent
       (test_location_event (resolver_fix GEO_RESOLVER_TDOA)
          [[4]; [5]; [6]; [1]; [2]; [3]] 0)].
Proof. reflexivity. Qed.

(** S6: GNSS with the payload "AQID". *)
Example scenario_gnss :
  trace (snd (HandleUplinkEvent (cfg 0 0 false false true false)
    (env_answer (resolver_fix GEO_RESOLVER_GNSS, None))
    (test_uplink [rx_at 1 None] (ObjectDecoded [("lr1110_gnss"%string, JString "AQID")]))
    world0))
  = [EvGetGeolocBuffer [1; 2; 3; 4; 5; 6; 7; 8] 0;
     EvResolve (GNSSLR1110SingleFrame [rx_at 1 None] false [1; 2; 3]);
     EvHandleLocationEvent
       (test_location_event (resolver_fix GEO_RESOLVER_GNSS) [] 10)].
Proof. reflexivity. Qed.

(** S7: WiFi with three access points. *)
Example scenario_wifi :
  trace (snd (HandleUplinkEvent (cfg 0 0 false false false true)
    (env_answer (resolver_fix GEO_RESOLVER_WIFI, None))
    (test_uplink rx3 (ObjectDecoded [("wifi_aps"%string, wifi_aps_json)])) world0))
  = [EvGetGeolocBuffer [1; 2; 3; 4; 5; 6; 7; 8] 0;
     EvSaveGeolocBuffer [1; 2; 3; 4; 5; 6; 7; 8] [rx3] 0;
     EvResolve (WifiTDOASingleFrame rx3
                  [mkWifiAccessPoint (repeat 1 6) (-10);
                   mkWifiAccessPoint (repeat 2 6) (-20);
                   mkWifiAccessPoint (repeat 3 6) (-30)]);
     EvHandleLocationEvent
       (test_location_event (resolver_fix GEO_RESOLVER_WIFI) [] 10)].
Proof. reflexivity. Qed.

(* ------------------------------------------------------------------ *)
(** ** Runs of the handler in closed form *)

Lemma updateGeolocBuffer_run c E dev pl w :
  updateGeolocBuffer c E dev pl w =
  let w1 := add_events w [EvGetGeolocBuffer dev (GeolocationBufferTTL c)] in
  let nb := updated_buffer c w dev pl in
  match get_error E with
  | Some g => (err (ErrWrap "get geoloc buffer error" g), w1)
  | None =>
      match nb with
      | [] => (ok [], w1)
      | _ :: _ =>
          match save_error E with
          | Some s =>
              (err (ErrWrap "save geoloc buffer error" s),
               add_events w1 [EvSaveGeolocBuffer dev nb (GeolocationBufferTTL c)])
          | None =>
              (ok nb, mkWorld (kv_set (kv w) dev (nb, GeolocationBufferTTL c))
                        (trace w1 ++ [EvSaveGeolocBuffer dev nb (GeolocationBufferTTL c)]))
          end
      end
  end.
Proof.
  unfold updateGeolocBuffer, bind, wrapM, GetGeolocBuffer, updated_buffer, stored_frames,
    add_events, ret.
  destruct (get_error E) as [g|]; [reflexivity|].
  destruct (GeolocationBufferTTL c =? 0); [|destruct (kv w dev) as [[[|f0 fs0] t0]|]];
    destruct (3 <=? List.length (UplinkEvent.RxInfo pl))%nat; cbn;
    try reflexivity; unfold SaveGeolocBuffer; cbn; rewrite ?app_nil_r;
    destruct (save_error E); reflexivity.
Qed.

Lemma min_buffer_gate (n : nat) (k : Z) :
  ((n =? 0)%nat || (Z.of_nat n <? k)) = negb (Z.max 1 k <=? Z.of_nat n).
Proof.
  destruct (Nat.eqb_spec n 0); destruct (Z.ltb_spec (Z.of_nat n) k);
    destruct (Z.leb_spec (Z.max 1 k) (Z.of_nat n)); simpl; auto; lia.
Qed.

Ltac run_answer E req :=
  unfold client_call, bind, emit, ret, resolved, throw; simpl;
  destruct (resolve E req) as [?loc [?e|]]; simpl;
  try destruct (is_ErrNoLocation _); reflexivity.

Lemma rssi_block_run c E buf pl w :
  geolocationRSSIBlock c E buf w =
  run_selection c E buf pl (if rssi_qualifies c buf then SelAttempt RSSI else SelNone) w.
Proof.
  unfold geolocationRSSIBlock, rssi_qualifies.
  destruct (GeolocationRSSI c); simpl; [|reflexivity].
  rewrite min_buffer_gate.
  destruct (Z.max 1 (GeolocationMinBufferSize c) <=? Z.of_nat (List.length buf));
    simpl; [|reflexivity].
  unfold rssiGeolocation, run_selection, request_for, add_events.
  run_answer E (if (List.length buf =? 1)%nat then RSSISingleFrame (nth 0 buf [])
                else RSSIMultiFrame buf).
Qed.

Lemma tdoa_block_run c E buf pl w :
  geolocationTDOABlock c E buf w =
  run_selection c E buf pl
    (if tdoa_qualifies c buf then SelAttempt TDOA
     else if rssi_qualifies c buf then SelAttempt RSSI else SelNone) w.
Proof.
  unfold geolocationTDOABlock, tdoa_qualifies.
  destruct (GeolocationTDOA c); simpl; [|apply rssi_block_run].
  rewrite min_buffer_gate.
  destruct (Z.max 1 (GeolocationMinBufferSize c)
              <=? Z.of_nat (List.length (filterOnFineTimestamp buf 3)));
    simpl; [|apply rssi_block_run].
  unfold tdoaGeolocation, run_selection, request_for, add_events.
  run_answer E (let fs := filterOnFineTimestamp buf 3 in
                if (List.length fs =? 1)%nat then TDOASingleFrame (nth 0 fs [])
                else TDOAMultiFrame fs).
Qed.

Lemma wifi_block_run c E buf pl w :
  geolocationWifiBlock c E buf pl w =
  run_selection c E buf pl
    (if wifi_extract_fails c pl then SelAbort wifi_msg
     else if wifi_qualifies c pl then SelAttempt Wifi
     else if tdoa_qualifies c buf then SelAttempt TDOA
     else if rssi_qualifies c buf then SelAttempt RSSI else SelNone) w.
Proof.
  unfold geolocationWifiBlock, wifi_extract_fails, wifi_qualifies.
  destruct (GeolocationWifi c); simpl; [|apply tdoa_block_run].
  destruct (getWifiAccessPointsFromJSONObject (GeolocationWifiPayloadField c)
              (UplinkEvent.ObjectJson pl)) as [[|ap aps]|e] eqn:Hx; simpl.
  - apply tdoa_block_run.
  - unfold wifiTDOAGeolocation, run_selection, request_for, add_events.
    rewrite Hx.
    run_answer E (WifiTDOASingleFrame (UplinkEvent.RxInfo pl) (ap :: aps)).
  - reflexivity.
Qed.

Lemma geolocation_run c E dev buf pl w :
  geolocation c E dev buf pl w = run_selection c E buf pl (select_strategy c buf pl) w.
Proof.
  unfold geolocation, select_strategy, gnss_extract_fails, gnss_qualifies.
  destruct (GeolocationGNSS c); simpl; [|apply wifi_block_run].
  destruct (getBytesFromJSONObject (GeolocationGNSSPayloadField c)
              (UplinkEvent.ObjectJson pl)) as [[|b bs]|e] eqn:Hx; simpl.
  - apply wifi_block_run.
  - unfold gnssLR1110Geolocation, run_selection, request_for, add_events.
    rewrite Hx.
    run_answer E (GNSSLR1110SingleFrame (UplinkEvent.RxInfo pl)
                    (GeolocationGNSSUseRxTime c) (b :: bs)).
  - reflexivity.
Qed.

Lemma HandleUplinkEvent_run c E pl w :
  Geolocation c = true ->
  HandleUplinkEvent c E pl w =
  match updateGeolocBuffer c E (eui64_of (UplinkEvent.DevEui pl)) pl w with
  | (err e, w1) => (err (ErrWrap "update geolocation buffer error" e), w1)
  | (ok buf, w1) =>
      match run_selection c E buf pl (select_strategy c buf pl) w1 with
      | (err e, w2) => (err (ErrWrap "geolocation error" e), w2)
      | (ok (_, None), w2) => (ok tt, w2)
      | (ok (ids, Some l), w2) =>
          let ev := location_event_of pl ids l in
          let w3 := add_events w2 [EvHandleLocationEvent ev] in
          (ok tt, match sink E ev with
                  | Some _ => add_events w3 [EvLogError sink_log]
                  | None => w3
                  end)
      end
  end.
Proof.
  intros Hg. unfold HandleUplinkEvent. rewrite Hg.
  unfold bind at 1, wrapM at 1.
  destruct (updateGeolocBuffer c E (eui64_of (UplinkEvent.DevEui pl)) pl w)
    as [[buf|e] w1]; [|reflexivity].
  unfold bind at 1, wrapM at 1. rewrite geolocation_run.
  destruct (run_selection c E buf pl (select_strategy c buf pl) w1)
    as [[[ids [l|]]|e] w2]; try reflexivity.
  unfold sinkHandleLocationEvent, bind, emit, ret, add_events, location_event_of; simpl.
  destruct (sink E _); reflexivity.
Qed.

Lemma HandleUplinkEvent_disabled_run c E pl w :
  Geolocation c = false -> HandleUplinkEvent c E pl w = (ok tt, w).
Proof. intros Hg. unfold HandleUplinkEvent. rewrite Hg. reflexivity. Qed.

Lemma skipn_length_app {A} (l1 l2 : list A) : skipn (List.length l1) (l1 ++ l2) = l2.
Proof. induction l1; simpl; auto. Qed.

(** The buffer update only appends buffer events. *)
Lemma updateGeolocBuffer_trace c E dev pl w :
  exists pre, trace (snd (updateGeolocBuffer c E dev pl w)) = trace w ++ pre
              /\ forall ev, In ev pre -> is_buffer_event ev = true.
Proof.
  rewrite updateGeolocBuffer_run. cbv zeta.
  destruct (get_error E).
  - eexists; split; [reflexivity|]. simpl. intros ev [<-|[]]; reflexivity.
  - destruct (updated_buffer c w dev pl).
    + eexists; split; [reflexivity|]. simpl. intros ev [<-|[]]; reflexivity.
    + destruct (save_error E); simpl;
        (eexists; split; [rewrite <- app_assoc; reflexivity|]);
        simpl; intros ev [<-|[<-|[]]]; reflexivity.
Qed.

Lemma uplink_events_ok c E pl w buf w1 :
  Geolocation c = true ->
  updateGeolocBuffer c E (eui64_of (UplinkEvent.DevEui pl)) pl w = (ok buf, w1) ->
  exists pre, (forall ev, In ev pre -> is_buffer_event ev = true)
    /\ uplink_events c E pl w = pre ++ selection_events c E buf pl (select_strategy c buf pl).
Proof.
  intros Hg Hu.
  destruct (updateGeolocBuffer_trace c E (eui64_of (UplinkEvent.DevEui pl)) pl w)
    as [pre [Htr Hpre]].
  rewrite Hu in Htr. simpl in Htr.
  exists pre. split; [exact Hpre|].
  unfold uplink_events. rewrite (HandleUplinkEvent_run _ _ _ _ Hg), Hu.
  unfold run_selection, selection_events.
  destruct (select_strategy c buf pl) as [msg| |s]; simpl.
  - rewrite Htr, <- app_assoc, skipn_length_app. reflexivity.
  - rewrite Htr, skipn_length_app, app_nil_r. reflexivity.
  - destruct (outcome s (resolve E (request_for s c buf pl))) as [[l|]|e]; simpl;
      [|rewrite Htr, <- app_assoc, skipn_length_app; reflexivity
       |rewrite Htr, <- app_assoc, skipn_length_app; reflexivity].
    destruct (sink E _); simpl; rewrite Htr, <- ?app_assoc, skipn_length_app; reflexivity.
Qed.

Lemma uplink_events_update_err c E pl w e w1 :
  Geolocation c = true ->
  updateGeolocBuffer c E (eui64_of (UplinkEvent.DevEui pl)) pl w = (err e, w1) ->
  forall ev, In ev (uplink_events c E pl w) -> is_buffer_event ev = true.
Proof.
  intros Hg Hu.
  destruct (updateGeolocBuffer_trace c E (eui64_of (UplinkEvent.DevEui pl)) pl w)
    as [pre [Htr Hpre]].
  rewrite Hu in Htr. simpl in Htr.
  unfold uplink_events. rewrite (HandleUplinkEvent_run _ _ _ _ Hg), Hu. simpl.
  rewrite Htr, skipn_length_app. exact Hpre.
Qed.

Lemma uplink_events_disabled c E pl w :
  Geolocation c = false -> uplink_events c E pl w = [].
Proof.
  intros Hg. unfold uplink_events. rewrite HandleUplinkEvent_disabled_run by exact Hg.
  simpl. rewrite <- (app_nil_r (trace w)) at 2. apply skipn_length_app.
Qed.

(* ------------------------------------------------------------------ *)
(** ** The store *)

Lemma run_selection_kv c E buf pl sel w :
  kv (snd (run_selection c E buf pl sel w)) = kv w.
Proof.
  unfold run_selection. destruct sel; simpl; try reflexivity.
  destruct (outcome _ _); reflexivity.
Qed.

Lemma HandleUplinkEvent_kv c E pl w :
  kv (snd (HandleUplinkEvent c E pl w)) =
  if Geolocation c
  then kv (snd (updateGeolocBuffer c E (eui64_of (UplinkEvent.DevEui pl)) pl w))
  else kv w.
Proof.
  destruct (Geolocation c) eqn:Hg.
  - rewrite (HandleUplinkEvent_run _ _ _ _ Hg).
    destruct (updateGeolocBuffer c E (eui64_of (UplinkEvent.DevEui pl)) pl w)
      as [[buf|e] w1]; simpl; [|reflexivity].
    pose proof (run_selection_kv c E buf pl (select_strategy c buf pl) w1) as Hk.
    destruct (run_selection c E buf pl (select_strategy c buf pl) w1)
      as [[[ids [l|]]|e] w2]; simpl in *; try exact Hk.
    destruct (sink E _); exact Hk.
  - rewrite HandleUplinkEvent_disabled_run by exact Hg. reflexivity.
Qed.

Lemma stored_frames_ok c w dev :
  store_ok w -> Forall (fun f : frame => (3 <= List.length f)%nat) (stored_frames c w dev).
Proof.
  intros Hok. unfold stored_frames.
  destruct (GeolocationBufferTTL c =? 0); [constructor|].
  destruct (kv w dev) as [[b t]|] eqn:Hk; [|constructor].
  exact (proj2 (Hok _ _ _ Hk)).
Qed.

Lemma updated_buffer_ok c w dev pl :
  store_ok w -> Forall (fun f : frame => (3 <= List.length f)%nat) (updated_buffer c w dev pl).
Proof.
  intros Hok. unfold updated_buffer. apply Forall_app. split.
  - apply stored_frames_ok, Hok.
  - destruct (3 <=? List.length (UplinkEvent.RxInfo pl))%nat eqn:H3; [|constructor].
    constructor; [apply Nat.leb_le, H3|constructor].
Qed.

Lemma updateGeolocBuffer_store_ok c E dev pl w :
  store_ok w -> store_ok (snd (updateGeolocBuffer c E dev pl w)).
Proof.
  intros Hok. rewrite updateGeolocBuffer_run. cbv zeta.
  destruct (get_error E); [exact Hok|].
  pose proof (updated_buffer_ok c w dev pl Hok) as Hf.
  destruct (updated_buffer c w dev pl) as [|f fs]; [exact Hok|].
  destruct (save_error E); [exact Hok|].
  intros k b t. simpl. unfold kv_set.
  destruct (list_eq_dec Z.eq_dec k dev).
  - intros H. injection H as <- <-. split; [discriminate|exact Hf].
  - apply Hok.
Qed.

Lemma reachable_store_ok w : reachable w -> store_ok w.
Proof.
  induction 1 as [tr|c E pl w _ IH|dev w _ IH].
  - intros k b t H. discriminate H.
  - intros k b t. rewrite HandleUplinkEvent_kv.
    destruct (Geolocation c).
    + apply (updateGeolocBuffer_store_ok c E (eui64_of (UplinkEvent.DevEui pl)) pl w IH).
    + apply IH.
  - intros k b t. simpl. destruct (list_eq_dec Z.eq_dec k dev); [discriminate|apply IH].
Qed.

(** ** C6: the buffer update and the persisted buffers *)

(** C6. The update appends the current frame iff it has at least 3
    receptions and saves (with the configured TTL) iff the result is
    non-empty; in every reachable store each persisted buffer is non-empty
    and all its frames have at least 3 receptions; and an uplink with fewer
    than 3 receptions leaves the frames stored under every key unchanged. *)
Theorem buffer_update_invariants :
  (forall c E dev pl w,
     get_error E = None -> save_error E = None ->
     updateGeolocBuffer c E dev pl w =
     let nb := updated_buffer c w dev pl in
     let ttl := GeolocationBufferTTL c in
     match nb with
     | [] => (ok [], add_events w [EvGetGeolocBuffer dev ttl])
     | _ :: _ =>
         (ok nb, mkWorld (kv_set (kv w) dev (nb, ttl))
                   (trace w ++ [EvGetGeolocBuffer dev ttl; EvSaveGeolocBuffer dev nb ttl]))
     end)
  /\ (forall w, reachable w ->
        forall k b t, kv w k = Some (b, t) ->
          b <> [] /\ Forall (fun f : frame => (3 <= List.length f)%nat) b)
  /\ (forall c E pl w,
        (List.length (UplinkEvent.RxInfo pl) < 3)%nat ->
        forall k, option_map fst (kv (snd (HandleUplinkEvent c E pl w)) k)
                  = option_map fst (kv w k)).
Proof.
  split; [|split].
  - intros c E dev pl w Hg Hs. rewrite updateGeolocBuffer_run, Hg. cbv zeta.
    destruct (updated_buffer c w dev pl); [reflexivity|].
    rewrite Hs. simpl. rewrite <- app_assoc. reflexivity.
  - intros w Hr. apply reachable_store_ok, Hr.
  - intros c E pl w Hlt k. rewrite HandleUplinkEvent_kv.
    destruct (Geolocation c); [|reflexivity].
    set (dev := eui64_of (UplinkEvent.DevEui pl)).
    assert (Hu : updated_buffer c w dev pl = stored_frames c w dev).
    { unfold updated_buffer.
      replace (3 <=? List.length (UplinkEvent.RxInfo pl))%nat with false
        by (symmetry; apply Nat.leb_gt, Hlt).
      apply app_nil_r. }
    rewrite updateGeolocBuffer_run. cbv zeta. rewrite Hu.
    destruct (get_error E); [reflexivity|].
    destruct (stored_frames c w dev) as [|f fs] eqn:Hs; [reflexivity|].
    destruct (save_error E); [reflexivity|].
    simpl. unfold kv_set.
    destruct (list_eq_dec Z.eq_dec k dev) as [->|]; [|reflexivity].
    unfold stored_frames in Hs.
    destruct (GeolocationBufferTTL c =? 0); [discriminate|].
    destruct (kv w dev) as [[b t]|]; [simpl; congruence|discriminate].
Qed.

(* ------------------------------------------------------------------ *)
(** ** The fine-timestamp filter *)

Lemma filter_frame_app (f rxs : frame) :
  filter_frame f rxs = f ++ filter has_fine_timestamp rxs.
Proof.
  induction rxs as [|rx rxs IH] in f |- *; simpl.
  - symmetry. apply app_nil_r.
  - destruct (has_fine_timestamp rx); rewrite IH; [rewrite <- app_assoc|]; reflexivity.
Qed.

Lemma filter_frames_app (m : Z) (out buf : list frame) :
  filter_frames m out buf = out ++ filter_on_fine_timestamp_spec buf m.
Proof.
  unfold filter_on_fine_timestamp_spec.
  induction buf as [|fr buf IH] in out |- *; simpl.
  - symmetry. apply app_nil_r.
  - rewrite IH, filter_frame_app, Z.geb_leb. simpl.
    destruct (m <=? Z.of_nat (List.length (filter has_fine_timestamp fr)));
      [rewrite <- app_assoc|]; reflexivity.
Qed.

Lemma filterOnFineTimestamp_eq (buf : list frame) (m : Z) :
  filterOnFineTimestamp buf m = filter_on_fine_timestamp_spec buf m.
Proof. apply filter_frames_app. Qed.

(** C7. filterOnFineTimestamp (a total function of the embedding) equals,
    on every buffer, keeping in each frame exactly the receptions with a
    fine timestamp, in order, and then keeping, in order, exactly the
    frames that retain at least [minPerFrame] receptions. *)
Theorem filterOnFineTimestamp_keeps_timestamped_frames (buf : list frame) (minPerFrame : Z) :
  filterOnFineTimestamp buf minPerFrame = filter_on_fine_timestamp_spec buf minPerFrame.
Proof. apply filterOnFineTimestamp_eq. Qed.

Lemma filterOnFineTimestamp_frames_ge (buf : list frame) (m : Z) :
  Forall (fun f : frame => m <= Z.of_nat (List.length f)) (filterOnFineTimestamp buf m).
Proof.
  rewrite filterOnFineTimestamp_eq. unfold filter_on_fine_timestamp_spec.
  apply Forall_forall. intros f Hf. apply filter_In in Hf as [_ Hf].
  apply Z.leb_le, Hf.
Qed.

(* ------------------------------------------------------------------ *)
(** ** Disabled geolocation *)

(** C9. With the geolocation flag off, HandleUplinkEvent returns success
    and leaves the world as it was: no buffer read or write, no resolver
    call, no location event. *)
Theorem disabled_geolocation_is_inert c E pl w :
  Geolocation c = false -> HandleUplinkEvent c E pl w = (ok tt, w).
Proof. apply HandleUplinkEvent_disabled_run. Qed.

(* ------------------------------------------------------------------ *)
(** ** WiFi access points *)

Lemma go_copy_zeros (n : nat) (b : list Z) :
  go_copy (repeat 0 n) b = firstn n b ++ repeat 0 (n - List.length b).
Proof.
  induction n as [|n IH] in b |- *; destruct b as [|x b]; simpl; try reflexivity.
  rewrite IH. reflexivity.
Qed.

Lemma wifiAccessPointOfJSON_ok kvs s b q :
  map_lookup "macAddress" kvs = Some (JString s) ->
  base64_decode s = Some b ->
  map_lookup "signalStrength" kvs = Some (JNumber q) ->
  wifiAccessPointOfJSON (JObject kvs)
  = ok (mkWifiAccessPoint (firstn 6 b ++ repeat 0 (6 - List.length b)) (go_int_of_float q)).
Proof.
  intros Hm Hb Hs. unfold wifiAccessPointOfJSON.
  rewrite Hm, Hb, Hs, go_copy_zeros. reflexivity.
Qed.

(** C10. For an access-point list whose entries have a string macAddress
    that base64-decodes (to any number n of bytes) and a numeric
    signalStrength, extraction succeeds, and each MAC holds the first
    min(n, 6) decoded bytes followed by zeros: no length check. *)
Theorem wifi_mac_length_not_validated (field : string) (m : list (string * json))
  (apvs : list json) :
  map_lookup field m = Some (JArray apvs) ->
  Forall (fun a => exists kvs s b q,
            a = JObject kvs /\ map_lookup "macAddress" kvs = Some (JString s)
            /\ base64_decode s = Some b /\ map_lookup "signalStrength" kvs = Some (JNumber q))
    apvs ->
  exists aps,
    getWifiAccessPointsFromJSONObject field (ObjectDecoded m) = ok aps
    /\ Forall2 (fun a ap => exists kvs s b,
                  a = JObject kvs /\ map_lookup "macAddress" kvs = Some (JString s)
                  /\ base64_decode s = Some b
                  /\ MacAddress ap = firstn 6 b ++ repeat 0 (6 - List.length b))
         apvs aps.
Proof.
  intros Hf Hall. unfold getWifiAccessPointsFromJSONObject. rewrite Hf. clear Hf.
  induction Hall as [|a apvs [kvs [s [b [q [-> [Hm [Hb Hs]]]]]]] _ IH].
  - exists []. split; [reflexivity|constructor].
  - destruct IH as [aps [Hok H2]].
    cbn [wifiAccessPointsOfList]. rewrite (wifiAccessPointOfJSON_ok kvs s b q Hm Hb Hs), Hok.
    eexists. split; [reflexivity|].
    constructor; [|exact H2].
    exists kvs, s, b. repeat split; assumption.
Qed.

(* ------------------------------------------------------------------ *)
(** ** Uplink ids of the location event *)

Ltac decide_bools :=
  repeat match goal with
         | |- context [if ?b then _ else _] => destruct b
         end.

Lemma select_tdoa_qualifies c buf pl :
  select_strategy c buf pl = SelAttempt TDOA -> tdoa_qualifies c buf = true.
Proof. unfold select_strategy. decide_bools; congruence. Qed.

Lemma select_rssi_qualifies c buf pl :
  select_strategy c buf pl = SelAttempt RSSI -> rssi_qualifies c buf = true.
Proof. unfold select_strategy. decide_bools; congruence. Qed.

Lemma update_ok_buffer c E dev pl w buf w1 :
  updateGeolocBuffer c E dev pl w = (ok buf, w1) -> buf = updated_buffer c w dev pl.
Proof.
  rewrite updateGeolocBuffer_run. cbv zeta.
  destruct (get_error E); [discriminate|].
  destruct (updated_buffer c w dev pl) eqn:Hnb; [congruence|].
  destruct (save_error E); congruence.
Qed.

Lemma collectUplinkIDs_flattened (fs : list frame) :
  collectUplinkIDs fs = flattened_uplink_ids fs.
Proof. unfold collectUplinkIDs, flattened_uplink_ids. apply flat_map_concat_map. Qed.

Lemma collectUplinkIDs_nonempty (fs : list frame) :
  Forall (fun f : frame => (3 <= List.length f)%nat) fs ->
  (1 <= List.length fs)%nat -> collectUplinkIDs fs <> [].
Proof.
  intros Hall Hlen. destruct fs as [|f fs]; simpl in Hlen; [lia|].
  inversion Hall as [|? ? Hf _]; subst.
  destruct f as [|rx f]; simpl in Hf; [lia|]. simpl. discriminate.
Qed.

Lemma single_frame (fs : list frame) :
  (List.length fs =? 1)%nat = true -> [nth 0 fs []] = fs.
Proof. destruct fs as [|f [|g fs]]; simpl; congruence. Qed.

Lemma fcnt_nonempty (pl : UplinkEvent.t) (ids : list bytes) :
  ids <> [] -> (match ids with [] => UplinkEvent.FCnt pl | _ => 0 end) = 0.
Proof. destruct ids; [contradiction|reflexivity]. Qed.

(** C5. Whenever an uplink emits a location event, a resolver request was
    sent during that uplink; if it is a TDOA or RSSI request, the event's
    uplink ids are the in-order flattened uplink ids of exactly the frames
    of the request (the filtered buffer for TDOA, the buffer for RSSI) and
    its f_cnt is 0; otherwise (GNSS, WiFi) the uplink ids are empty and
    f_cnt is the uplink's. *)
Theorem location_event_uplink_ids c E pl w ev :
  reachable w ->
  In (EvHandleLocationEvent ev) (uplink_events c E pl w) ->
  exists req,
    In (EvResolve req) (uplink_events c E pl w)
    /\ (if is_tdoa_request req
        then request_frames req
             = filterOnFineTimestamp (updated_buffer c w (eui64_of (UplinkEvent.DevEui pl)) pl) 3
        else True)
    /\ (if is_rssi_request req
        then request_frames req = updated_buffer c w (eui64_of (UplinkEvent.DevEui pl)) pl
        else True)
    /\ (if is_tdoa_request req || is_rssi_request req
        then LocationEvent.UplinkIds ev = flattened_uplink_ids (request_frames req)
             /\ LocationEvent.FCnt ev = 0
        else LocationEvent.UplinkIds ev = [] /\ LocationEvent.FCnt ev = UplinkEvent.FCnt pl).
Proof.
  intros Hr Hin.
  destruct (Geolocation c) eqn:Hg;
    [|rewrite uplink_events_disabled in Hin by exact Hg; contradiction].
  set (dev := eui64_of (UplinkEvent.DevEui pl)) in *.
  destruct (updateGeolocBuffer c E dev pl w) as [[buf|e] w1] eqn:Hu;
    [|apply (uplink_events_update_err c E pl w e w1 Hg Hu) in Hin; discriminate].
  destruct (uplink_events_ok c E pl w buf w1 Hg Hu) as [pre [Hpre Hev]].
  rewrite Hev in Hin |- *.
  apply in_app_or in Hin as [Hin|Hin]; [apply Hpre in Hin; discriminate|].
  pose proof (update_ok_buffer c E dev pl w buf w1 Hu) as Hbuf.
  unfold selection_events in Hin.
  destruct (select_strategy c buf pl) as [msg| |s] eqn:Hsel; simpl in Hin;
    [destruct Hin as [H|[]]; discriminate|contradiction|].
  destruct (outcome s (resolve E (request_for s c buf pl))) as [[l|]|e];
    simpl in Hin; try (destruct Hin as [H|[]]; discriminate).
  destruct Hin as [H|[H|Hin]]; [discriminate|injection H as <-|].
  2:{ destruct (sink E _); simpl in Hin; [destruct Hin as [H|[]]; discriminate|contradiction]. }
  exists (request_for s c buf pl). split.
  { apply in_or_app. right. left. reflexivity. }
  subst buf.
  destruct s; simpl.
  - repeat split.
  - repeat split.
  - pose proof (select_tdoa_qualifies _ _ _ Hsel) as Hq.
    unfold tdoa_qualifies in Hq. apply andb_prop in Hq as [_ Hq].
    apply Z.leb_le in Hq.
    assert (Hne : collectUplinkIDs (filterOnFineTimestamp (updated_buffer c w dev pl) 3) <> []).
    { apply collectUplinkIDs_nonempty; [|lia].
      eapply Forall_impl; [|apply filterOnFineTimestamp_frames_ge]. simpl. intros f Hf. lia. }
    destruct (List.length (filterOnFineTimestamp (updated_buffer c w dev pl) 3) =? 1)%nat
      eqn:H1; simpl; rewrite ?(single_frame _ H1);
      (split; [reflexivity|split; [exact I|split;
        [apply collectUplinkIDs_flattened|apply fcnt_nonempty, Hne]]]).
  - pose proof (select_rssi_qualifies _ _ _ Hsel) as Hq.
    unfold rssi_qualifies in Hq. apply andb_prop in Hq as [_ Hq].
    apply Z.leb_le in Hq.
    assert (Hne : collectUplinkIDs (updated_buffer c w dev pl) <> []).
    { apply collectUplinkIDs_nonempty; [|lia].
      apply updated_buffer_ok, reachable_store_ok, Hr. }
    destruct (List.length (updated_buffer c w dev pl) =? 1)%nat
      eqn:H1; simpl; rewrite ?(single_frame _ H1);
      (split; [exact I|split; [reflexivity|split;
        [apply collectUplinkIDs_flattened|apply fcnt_nonempty, Hne]]]).
Qed.

(* ------------------------------------------------------------------ *)
(** ** Errors of the handler *)

Lemma updateGeolocBuffer_env c E E' dev pl w :
  get_error E' = get_error E -> save_error E' = save_error E ->
  updateGeolocBuffer c E' dev pl w = updateGeolocBuffer c E dev pl w.
Proof. intros H1 H2. rewrite !updateGeolocBuffer_run, H1, H2. reflexivity. Qed.

Lemma HandleUplinkEvent_result c E pl w :
  fst (HandleUplinkEvent c E pl w) =
  if Geolocation c then
    match updateGeolocBuffer c E (eui64_of (UplinkEvent.DevEui pl)) pl w with
    | (err e, _) => err (ErrWrap "update geolocation buffer error" e)
    | (ok buf, w1) =>
        match fst (geolocation c E (eui64_of (UplinkEvent.DevEui pl)) buf pl w1) with
        | err e => err (ErrWrap "geolocation error" e)
        | ok _ => ok tt
        end
    end
  else ok tt.
Proof.
  destruct (Geolocation c) eqn:Hg; [|rewrite HandleUplinkEvent_disabled_run; auto].
  rewrite (HandleUplinkEvent_run _ _ _ _ Hg).
  destruct (updateGeolocBuffer _ _ _ _ _) as [[buf|e] w1]; [|reflexivity].
  rewrite geolocation_run.
  destruct (run_selection c E buf pl (select_strategy c buf pl) w1)
    as [[[ids [l|]]|e] w2]; reflexivity.
Qed.

(** C8. HandleUplinkEvent fails exactly when the buffer update fails or
    the orchestrator fails, with the error wrapped in context; the buffer
    update fails exactly on a store read error or on a store write error
    (a write only happens for a non-empty buffer), wrapped in context; the
    result does not depend on what the sink's HandleLocationEvent returns;
    and a sink failure is logged. *)
Theorem uplink_error_propagation c E pl w :
  let dev := eui64_of (UplinkEvent.DevEui pl) in
  (forall e,
     fst (HandleUplinkEvent c E pl w) = err e <->
     Geolocation c = true /\
     ((exists e0, fst (updateGeolocBuffer c E dev pl w) = err e0
                  /\ e = ErrWrap "update geolocation buffer error" e0)
      \/ (exists buf w1 e0, updateGeolocBuffer c E dev pl w = (ok buf, w1)
            /\ fst (geolocation c E dev buf pl w1) = err e0
            /\ e = ErrWrap "geolocation error" e0)))
  /\ (forall e0,
        fst (updateGeolocBuffer c E dev pl w) = err e0 <->
        (exists g, get_error E = Some g /\ e0 = ErrWrap "get geoloc buffer error" g)
        \/ (get_error E = None /\ updated_buffer c w dev pl <> []
            /\ exists s, save_error E = Some s /\ e0 = ErrWrap "save geoloc buffer error" s))
  /\ (forall snk,
        fst (HandleUplinkEvent c (mkEnv (get_error E) (save_error E) (resolve E) snk) pl w)
        = fst (HandleUplinkEvent c E pl w))
  /\ (forall ev e,
        In (EvHandleLocationEvent ev) (uplink_events c E pl w) -> sink E ev = Some e ->
        In (EvLogError sink_log) (uplink_events c E pl w)).
Proof.
  intros dev. split; [|split; [|split]].
  - intros e. rewrite HandleUplinkEvent_result. fold dev.
    destruct (Geolocation c); [|split; [discriminate|intros [H _]; discriminate]].
    destruct (updateGeolocBuffer c E dev pl w) as [[buf|e0] w1] eqn:Hu; simpl.
    + destruct (geolocation c E dev buf pl w1) as [[r|e1] w2] eqn:Hgeo; simpl.
      * split; [discriminate|].
        intros [_ [[e0 [H _]]|[buf' [w1' [e0 [H [H' _]]]]]]]; [discriminate|].
        injection H as <- <-. rewrite Hgeo in H'. discriminate.
      * split.
        -- intros H. injection H as <-. split; [reflexivity|].
           right. exists buf, w1, e1. rewrite Hgeo. auto.
        -- intros [_ [[e0 [H _]]|[buf' [w1' [e0 [H [H' ->]]]]]]]; [discriminate|].
           injection H as <- <-. rewrite Hgeo in H'. injection H' as ->. reflexivity.
    + split.
      * intros H. injection H as <-. split; [reflexivity|]. left. eauto.
      * intros [_ [[e1 [H ->]]|[buf' [w1' [e1 [H _]]]]]]; [|discriminate].
        injection H as ->. reflexivity.
  - intros e0. rewrite updateGeolocBuffer_run. cbv zeta.
    destruct (get_error E) as [g|]; simpl.
    + split.
      * intros H. injection H as <-. left. eauto.
      * intros [[g0 [H ->]]|[H _]]; [injection H as <-; reflexivity|discriminate].
    + destruct (updated_buffer c w dev pl) as [|f fs]; simpl.
      * split; [discriminate|].
        intros [[g [H _]]|[_ [H _]]]; [discriminate|contradiction (H eq_refl)].
      * destruct (save_error E) as [sv|]; simpl.
        -- split.
           ++ intros H. injection H as <-. right. split; [reflexivity|].
              split; [discriminate|eauto].
           ++ intros [[g [H _]]|[_ [_ [s0 [H ->]]]]]; [discriminate|].
              injection H as <-. reflexivity.
        -- split; [discriminate|].
           intros [[g [H _]]|[_ [_ [s0 [H _]]]]]; discriminate.
  - intros snk. rewrite !HandleUplinkEvent_result.
    rewrite (updateGeolocBuffer_env c E (mkEnv (get_error E) (save_error E) (resolve E) snk))
      by reflexivity.
    destruct (Geolocation c); [|reflexivity].
    destruct (updateGeolocBuffer c E (eui64_of (UplinkEvent.DevEui pl)) pl w)
      as [[buf|e] w1]; [|reflexivity].
    rewrite !geolocation_run. reflexivity.
  - intros ev e Hin Hs.
    destruct (Geolocation c) eqn:Hg;
      [|rewrite uplink_events_disabled in Hin by exact Hg; contradiction].
    destruct (updateGeolocBuffer c E dev pl w) as [[buf|e0] w1] eqn:Hu;
      [|apply (uplink_events_update_err c E pl w e0 w1 Hg Hu) in Hin; discriminate].
    destruct (uplink_events_ok c E pl w buf w1 Hg Hu) as [pre [Hpre Hev]].
    rewrite Hev in Hin |- *.
    apply in_app_or in Hin as [Hin|Hin]; [apply Hpre in Hin; discriminate|].
    apply in_or_app. right.
    unfold selection_events in Hin |- *.
    destruct (select_strategy c buf pl) as [msg| |s]; simpl in Hin;
      [destruct Hin as [H|[]]; discriminate|contradiction|].
    destruct (outcome s (resolve E (request_for s c buf pl))) as [[l|]|e1];
      simpl in Hin; try (destruct Hin as [H|[]]; discriminate).
    destruct Hin as [H|[H|Hin]]; [discriminate| |].
    + injection H as <-. rewrite Hs. right. right. left. reflexivity.
    + destruct (sink E _); simpl in Hin; [destruct Hin as [H|[]]; discriminate|contradiction].
Qed.

(* ------------------------------------------------------------------ *)
(** ** Strategy selection *)

Lemma resolve_events_selected c E pl w buf w1 req :
  Geolocation c = true ->
  updateGeolocBuffer c E (eui64_of (UplinkEvent.DevEui pl)) pl w = (ok buf, w1) ->
  In (EvResolve req) (uplink_events c E pl w) <->
  exists s, select_strategy c buf pl = SelAttempt s /\ req = request_for s c buf pl.
Proof.
  intros Hg Hu.
  destruct (uplink_events_ok c E pl w buf w1 Hg Hu) as [pre [Hpre Hev]].
  rewrite Hev. split.
  - intros Hin. apply in_app_or in Hin as [Hin|Hin]; [apply Hpre in Hin; discriminate|].
    unfold selection_events in Hin.
    destruct (select_strategy c buf pl) as [msg| |s]; simpl in Hin;
      [destruct Hin as [H|[]]; discriminate|contradiction|].
    exists s. split; [reflexivity|].
    destruct Hin as [H|Hin]; [injection H as ->; reflexivity|].
    destruct (outcome s (resolve E (request_for s c buf pl))) as [[l|]|e];
      simpl in Hin; try contradiction.
    destruct Hin as [H|Hin]; [discriminate|].
    destruct (sink E _); simpl in Hin; [destruct Hin as [H|[]]; discriminate|contradiction].
  - intros [s [Hsel ->]]. apply in_or_app. right.
    unfold selection_events. rewrite Hsel. left. reflexivity.
Qed.

Lemma request_for_tdoa s c buf pl :
  is_tdoa_request (request_for s c buf pl) = true <-> s = TDOA.
Proof.
  destruct s; simpl; try (split; congruence).
  - split; [intros _; reflexivity|intros _].
    destruct (_ =? 1)%nat; reflexivity.
  - destruct (_ =? 1)%nat; simpl; split; congruence.
Qed.

Lemma request_for_rssi s c buf pl :
  is_rssi_request (request_for s c buf pl) = true <-> s = RSSI.
Proof.
  destruct s; simpl; try (split; congruence).
  - destruct (_ =? 1)%nat; simpl; split; congruence.
  - split; [intros _; reflexivity|intros _].
    destruct (_ =? 1)%nat; reflexivity.
Qed.

Lemma select_tdoa_iff c buf pl :
  select_strategy c buf pl = SelAttempt TDOA <->
  gnss_extract_fails c pl = false /\ gnss_qualifies c pl = false
  /\ wifi_extract_fails c pl = false /\ wifi_qualifies c pl = false
  /\ tdoa_qualifies c buf = true.
Proof.
  unfold select_strategy.
  destruct (gnss_extract_fails c pl), (gnss_qualifies c pl), (wifi_extract_fails c pl),
    (wifi_qualifies c pl), (tdoa_qualifies c buf), (rssi_qualifies c buf);
    split; try congruence; intuition congruence.
Qed.

Lemma select_rssi_iff c buf pl :
  select_strategy c buf pl = SelAttempt RSSI <->
  gnss_extract_fails c pl = false /\ gnss_qualifies c pl = false
  /\ wifi_extract_fails c pl = false /\ wifi_qualifies c pl = false
  /\ tdoa_qualifies c buf = false /\ rssi_qualifies c buf = true.
Proof.
  unfold select_strategy.
  destruct (gnss_extract_fails c pl), (gnss_qualifies c pl), (wifi_extract_fails c pl),
    (wifi_qualifies c pl), (tdoa_qualifies c buf), (rssi_qualifies c buf);
    split; try congruence; intuition congruence.
Qed.

Lemma attempted_request_iff c E pl w buf w1 (p : request -> bool) (s0 : strategy) :
  Geolocation c = true ->
  updateGeolocBuffer c E (eui64_of (UplinkEvent.DevEui pl)) pl w = (ok buf, w1) ->
  (forall s, p (request_for s c buf pl) = true <-> s = s0) ->
  (exists req, p req = true /\ In (EvResolve req) (uplink_events c E pl w)) <->
  select_strategy c buf pl = SelAttempt s0.
Proof.
  intros Hg Hu Hp. split.
  - intros [req [Hreq Hin]].
    apply (resolve_events_selected c E pl w buf w1 req Hg Hu) in Hin as [s [Hsel ->]].
    apply Hp in Hreq. subst. exact Hsel.
  - intros Hsel. exists (request_for s0 c buf pl). split; [apply Hp; reflexivity|].
    apply (resolve_events_selected c E pl w buf w1 _ Hg Hu). eauto.
Qed.

Lemma qualifies_len_iff (b : bool) (k n : Z) :
  (b && (Z.max 1 k <=? n)) = true <-> b = true /\ Z.max 1 k <= n.
Proof. rewrite andb_true_iff, Z.leb_le. reflexivity. Qed.

(** C3 (corrected). The resolver requests of an uplink are exactly the one
    request of the strategy [select_strategy] picks: GNSS, WiFi, TDOA, RSSI
    in that order, the first that qualifies, unless an enabled GNSS or WiFi
    extractor fails first, in which case none is attempted. When the
    attempted strategy's resolver answers NoLocation, the handler returns
    success after that single request, with no location event and no
    further strategy. *)
Theorem strategy_single_attempt_final c E pl w buf w1 :
  Geolocation c = true ->
  updateGeolocBuffer c E (eui64_of (UplinkEvent.DevEui pl)) pl w = (ok buf, w1) ->
  (forall req, In (EvResolve req) (uplink_events c E pl w) <->
     exists s, select_strategy c buf pl = SelAttempt s /\ req = request_for s c buf pl)
  /\ (forall s, select_strategy c buf pl = SelAttempt s ->
        snd (resolve E (request_for s c buf pl)) = Some ErrNoLocation ->
        HandleUplinkEvent c E pl w = (ok tt, add_events w1 [EvResolve (request_for s c buf pl)])).
Proof.
  intros Hg Hu. split.
  - intros req. apply (resolve_events_selected c E pl w buf w1 req Hg Hu).
  - intros s Hsel Hno.
    rewrite (HandleUplinkEvent_run _ _ _ _ Hg), Hu, Hsel.
    unfold run_selection. cbv zeta.
    destruct (resolve E (request_for s c buf pl)) as [loc e]. simpl in Hno. subst e.
    destruct s; reflexivity.
Qed.

(** C4 (corrected). A TDOA request is sent exactly when TDOA is enabled,
    neither GNSS nor WiFi qualifies, neither enabled extractor fails, and
    the fine-timestamp-filtered buffer holds at least max(1, k) frames; an
    RSSI request exactly when RSSI is enabled, none of GNSS, WiFi, TDOA
    qualifies, neither enabled extractor fails, and the buffer holds at
    least max(1, k) frames. *)
Theorem tdoa_rssi_attempt_conditions c E pl w buf w1 :
  Geolocation c = true ->
  updateGeolocBuffer c E (eui64_of (UplinkEvent.DevEui pl)) pl w = (ok buf, w1) ->
  ((exists req, is_tdoa_request req = true /\ In (EvResolve req) (uplink_events c E pl w)) <->
     GeolocationTDOA c = true
     /\ gnss_extract_fails c pl = false /\ gnss_qualifies c pl = false
     /\ wifi_extract_fails c pl = false /\ wifi_qualifies c pl = false
     /\ Z.max 1 (GeolocationMinBufferSize c)
          <= Z.of_nat (List.length (filterOnFineTimestamp buf 3)))
  /\ ((exists req, is_rssi_request req = true /\ In (EvResolve req) (uplink_events c E pl w)) <->
     GeolocationRSSI c = true
     /\ gnss_extract_fails c pl = false /\ gnss_qualifies c pl = false
     /\ wifi_extract_fails c pl = false /\ wifi_qualifies c pl = false
     /\ tdoa_qualifies c buf = false
     /\ Z.max 1 (GeolocationMinBufferSize c) <= Z.of_nat (List.length buf)).
Proof.
  intros Hg Hu. split.
  - rewrite (attempted_request_iff c E pl w buf w1 is_tdoa_request TDOA Hg Hu
               (fun s => request_for_tdoa s c buf pl)).
    rewrite select_tdoa_iff. unfold tdoa_qualifies. rewrite qualifies_len_iff. tauto.
  - rewrite (attempted_request_iff c E pl w buf w1 is_rssi_request RSSI Hg Hu
               (fun s => request_for_rssi s c buf pl)).
    rewrite select_rssi_iff. unfold rssi_qualifies. rewrite qualifies_len_iff. tauto.
Qed.

(** C2 (corrected). When the enabled GNSS extractor fails, or GNSS does not
    qualify and the enabled WiFi extractor fails, the handler logs the
    failure and returns success right after the buffer update: no resolver
    request at all, lower-priority strategies included. *)
Theorem extractor_failure_aborts c E pl w buf w1 :
  Geolocation c = true ->
  updateGeolocBuffer c E (eui64_of (UplinkEvent.DevEui pl)) pl w = (ok buf, w1) ->
  gnss_extract_fails c pl = true
  \/ (gnss_qualifies c pl = false /\ wifi_extract_fails c pl = true) ->
  HandleUplinkEvent c E pl w
  = (ok tt, add_events w1 [EvLogError (if gnss_extract_fails c pl then gnss_msg else wifi_msg)]).
Proof.
  intros Hg Hu Hf.
  rewrite (HandleUplinkEvent_run _ _ _ _ Hg), Hu.
  unfold select_strategy.
  destruct (gnss_extract_fails c pl); [reflexivity|].
  destruct Hf as [Hf|[Hq Hw]]; [discriminate|].
  rewrite Hq, Hw. reflexivity.
Qed.

(* ------------------------------------------------------------------ *)
(** ** WiFi resolver errors *)

(** C1 (code bug). A WiFi uplink whose resolver call fails with a
    non-sentinel error: the handler returns success and hands the sink a
    location event carrying the zero location the client returned. *)
Theorem wifi_resolver_error_swallowed (msg : string) :
  HandleUplinkEvent (cfg 0 0 false false false true)
    (env_answer (Location.zero, Some (ErrString msg)))
    (test_uplink rx3 (ObjectDecoded [("wifi_aps"%string, wifi_aps_json)])) world0
  = (ok tt, mkWorld (kv_set (fun _ => None) test_eui ([rx3], 0))
       [EvGetGeolocBuffer test_eui 0;
        EvSaveGeolocBuffer test_eui [rx3] 0;
        EvResolve (WifiTDOASingleFrame rx3
                     [mkWifiAccessPoint (repeat 1 6) (-10);
                      mkWifiAccessPoint (repeat 2 6) (-20);
                      mkWifiAccessPoint (repeat 3 6) (-30)]);
        EvHandleLocationEvent (test_location_event Location.zero [] 10)]).
Proof. reflexivity. Qed.

(* ------------------------------------------------------------------ *)
(** ** Instances at concrete uplinks *)

Lemma disabled_geolocation_is_inert_witness :
  HandleUplinkEvent (mkConfig false "" 60 1 true true true "lr1110_gnss" false true "wifi_aps")
    (env_answer (resolver_fix GEO_RESOLVER_TDOA, None))
    (test_uplink rx3 ObjectEmpty) world_old
  = (ok tt, world_old).
Proof. apply disabled_geolocation_is_inert. reflexivity. Defined.

Lemma wifi_mac_length_not_validated_witness :
  exists aps,
    getWifiAccessPointsFromJSONObject "wifi_aps"
      (ObjectDecoded [("wifi_aps"%string, JArray aps_odd_macs)]) = ok aps
    /\ Forall2 (fun a ap => exists kvs s b,
                  a = JObject kvs /\ map_lookup "macAddress" kvs = Some (JString s)
                  /\ base64_decode s = Some b
                  /\ MacAddress ap = firstn 6 b ++ repeat 0 (6 - List.length b))
         aps_odd_macs aps.
Proof.
  apply wifi_mac_length_not_validated.
  - reflexivity.
  - unfold aps_odd_macs.
    repeat (constructor; [do 4 eexists; split; [reflexivity|split; [reflexivity|split; reflexivity]]|]).
    constructor.
Defined.

Lemma location_event_uplink_ids_witness :
  exists req,
    In (EvResolve req)
      (uplink_events (cfg 0 0 true false false false)
         (env_answer (resolver_fix GEO_RESOLVER_TDOA, None)) (test_uplink rx3 ObjectEmpty) world0)
    /\ (if is_tdoa_request req
        then request_frames req
             = filterOnFineTimestamp
                 (updated_buffer (cfg 0 0 true false false false) world0
                    (eui64_of (UplinkEvent.DevEui (test_uplink rx3 ObjectEmpty)))
                    (test_uplink rx3 ObjectEmpty)) 3
        else True)
    /\ (if is_rssi_request req
        then request_frames req
             = updated_buffer (cfg 0 0 true false false false) world0
                 (eui64_of (UplinkEvent.DevEui (test_uplink rx3 ObjectEmpty)))
                 (test_uplink rx3 ObjectEmpty)
        else True)
    /\ (if is_tdoa_request req || is_rssi_request req
        then LocationEvent.UplinkIds (test_location_event (resolver_fix GEO_RESOLVER_TDOA) [[1]; [2]; [3]] 0)
             = flattened_uplink_ids (request_frames req)
             /\ LocationEvent.FCnt (test_location_event (resolver_fix GEO_RESOLVER_TDOA) [[1]; [2]; [3]] 0) = 0
        else LocationEvent.UplinkIds (test_location_event (resolver_fix GEO_RESOLVER_TDOA) [[1]; [2]; [3]] 0) = []
             /\ LocationEvent.FCnt (test_location_event (resolver_fix GEO_RESOLVER_TDOA) [[1]; [2]; [3]] 0)
                = UplinkEvent.FCnt (test_uplink rx3 ObjectEmpty)).
Proof.
  apply location_event_uplink_ids.
  - apply reachable_empty.
  - vm_compute. right. right. right. left. reflexivity.
Defined.

Lemma strategy_single_attempt_final_witness :
  HandleUplinkEvent (cfg 0 0 true false false false)
    (env_answer (Location.zero, Some ErrNoLocation)) (test_uplink rx3 ObjectEmpty) world0
  = (ok tt, add_events
       (mkWorld (kv_set (fun _ => None) test_eui ([rx3], 0))
          [EvGetGeolocBuffer test_eui 0; EvSaveGeolocBuffer test_eui [rx3] 0])
       [EvResolve (request_for TDOA (cfg 0 0 true false false false) [rx3]
                     (test_uplink rx3 ObjectEmpty))]).
Proof.
  refine (proj2 (strategy_single_attempt_final (cfg 0 0 true false false false)
                   (env_answer (Location.zero, Some ErrNoLocation))
                   (test_uplink rx3 ObjectEmpty) world0 [rx3]
                   (mkWorld (kv_set (fun _ => None) test_eui ([rx3], 0))
                      [EvGetGeolocBuffer test_eui 0; EvSaveGeolocBuffer test_eui [rx3] 0])
                   _ _) TDOA _ _); vm_compute; reflexivity.
Defined.

Lemma tdoa_rssi_attempt_conditions_witness :
  exists req, is_tdoa_request req = true
    /\ In (EvResolve req)
         (uplink_events (cfg 0 0 true true false false)
            (env_answer (resolver_fix GEO_RESOLVER_TDOA, None)) (test_uplink rx3 ObjectEmpty) world0).
Proof.
  refine (proj2 (proj1 (tdoa_rssi_attempt_conditions (cfg 0 0 true true false false)
                   (env_answer (resolver_fix GEO_RESOLVER_TDOA, None))
                   (test_uplink rx3 ObjectEmpty) world0 [rx3]
                   (mkWorld (kv_set (fun _ => None) test_eui ([rx3], 0))
                      [EvGetGeolocBuffer test_eui 0; EvSaveGeolocBuffer test_eui [rx3] 0])
                   _ _)) _).
  all: repeat split; vm_compute; try reflexivity; discriminate.
Defined.

Lemma extractor_failure_aborts_witness :
  HandleUplinkEvent (cfg 0 0 false true false true)
    (env_answer (resolver_fix GEO_RESOLVER_RSSI, None))
    (test_uplink rx3 obj_wifi_not_a_list) world0
  = (ok tt, add_events
       (mkWorld (kv_set (fun _ => None) test_eui ([rx3], 0))
          [EvGetGeolocBuffer test_eui 0; EvSaveGeolocBuffer test_eui [rx3] 0])
       [EvLogError wifi_msg]).
Proof.
  refine (extractor_failure_aborts (cfg 0 0 false true false true)
            (env_answer (resolver_fix GEO_RESOLVER_RSSI, None))
            (test_uplink rx3 obj_wifi_not_a_list) world0 [rx3]
            (mkWorld (kv_set (fun _ => None) test_eui ([rx3], 0))
               [EvGetGeolocBuffer test_eui 0; EvSaveGeolocBuffer test_eui [rx3] 0])
            _ _ _); [vm_compute; reflexivity|vm_compute; reflexivity|].
  right. split; vm_compute; reflexivity.
Defined.

(* ------------------------------------------------------------------ *)
(** ** Runs against the claims' wording *)

(** An undecodable WiFi field with RSSI qualifying: the handler logs and
    stops, RSSI is never attempted. *)
Lemma wifi_extract_failure_skips_rssi :
  wifi_extract_fails (cfg 0 0 false true false true) (test_uplink rx3 obj_wifi_not_a_list) = true
  /\ updated_buffer (cfg 0 0 false true false true) world0 test_eui
       (test_uplink rx3 obj_wifi_not_a_list) = [rx3]
  /\ rssi_qualifies (cfg 0 0 false true false true) [rx3] = true
  /\ uplink_events (cfg 0 0 false true false true)
       (env_answer (resolver_fix GEO_RESOLVER_RSSI, None))
       (test_uplink rx3 obj_wifi_not_a_list) world0
     = [EvGetGeolocBuffer test_eui 0; EvSaveGeolocBuffer test_eui [rx3] 0; EvLogError wifi_msg].
Proof. vm_compute. repeat split; reflexivity. Qed.

(** GNSS enabled with a non-string field, WiFi enabled with valid access
    points: WiFi qualifies, yet nothing is attempted. *)
Lemma gnss_extract_failure_blocks_wifi :
  gnss_extract_fails (cfg 0 0 false false true true)
    (test_uplink rx3 obj_gnss_mismatch_with_wifi) = true
  /\ wifi_qualifies (cfg 0 0 false false true true)
       (test_uplink rx3 obj_gnss_mismatch_with_wifi) = true
  /\ uplink_events (cfg 0 0 false false true true)
       (env_answer (resolver_fix GEO_RESOLVER_WIFI, None))
       (test_uplink rx3 obj_gnss_mismatch_with_wifi) world0
     = [EvGetGeolocBuffer test_eui 0; EvSaveGeolocBuffer test_eui [rx3] 0; EvLogError gnss_msg].
Proof. vm_compute. repeat split; reflexivity. Qed.

(** GNSS enabled with an undecodable base64 payload, TDOA enabled over a
    frame with three fine timestamps: GNSS and WiFi do not qualify, the
    filtered buffer holds max(1, 0) frames, yet no TDOA request is sent. *)
Lemma gnss_base64_failure_blocks_tdoa :
  GeolocationTDOA (cfg 0 0 true false true false) = true
  /\ gnss_qualifies (cfg 0 0 true false true false) (test_uplink rx3 obj_gnss_bad_base64) = false
  /\ wifi_qualifies (cfg 0 0 true false true false) (test_uplink rx3 obj_gnss_bad_base64) = false
  /\ updated_buffer (cfg 0 0 true false true false) world0 test_eui
       (test_uplink rx3 obj_gnss_bad_base64) = [rx3]
  /\ Z.max 1 (GeolocationMinBufferSize (cfg 0 0 true false true false))
       <= Z.of_nat (List.length (filterOnFineTimestamp [rx3] 3))
  /\ uplink_events (cfg 0 0 true false true false)
       (env_answer (resolver_fix GEO_RESOLVER_TDOA, None))
       (test_uplink rx3 obj_gnss_bad_base64) world0
     = [EvGetGeolocBuffer test_eui 0; EvSaveGeolocBuffer test_eui [rx3] 0; EvLogError gnss_msg].
Proof. repeat split; try (vm_compute; reflexivity). vm_compute. discriminate. Qed.

(* ------------------------------------------------------------------ *)
(** ** Further properties of the code *)

(** *** filterOnFineTimestamp *)

Lemma filter_idem {A} (p : A -> bool) (l : list A) : filter p (filter p l) = filter p l.
Proof.
  induction l as [|a l IH]; simpl; [reflexivity|].
  destruct (p a) eqn:Hp; simpl; rewrite ?Hp, IH; reflexivity.
Qed.

(** Filtering twice is filtering once with the larger minimum; in
    particular the filter is idempotent. *)
Theorem filterOnFineTimestamp_compose (buf : list frame) (m1 m2 : Z) :
  filterOnFineTimestamp (filterOnFineTimestamp buf m1) m2
  = filterOnFineTimestamp buf (Z.max m1 m2).
Proof.
  rewrite !filterOnFineTimestamp_eq. unfold filter_on_fine_timestamp_spec.
  induction buf as [|fr buf IH]; [reflexivity|].
  simpl. set (n := Z.of_nat (List.length (filter has_fine_timestamp fr))).
  destruct (Z.leb_spec m1 n); simpl; rewrite ?filter_idem; fold n.
  - destruct (Z.leb_spec m2 n); destruct (Z.leb_spec (Z.max m1 m2) n);
      try lia; rewrite IH; reflexivity.
  - destruct (Z.leb_spec (Z.max m1 m2) n); [lia|exact IH].
Qed.

(** Every frame of the output has at least [minPerFrame] receptions, all of
    them with a fine timestamp, and the output has at most as many frames
    as the input. *)
Theorem filterOnFineTimestamp_output_shape (buf : list frame) (m : Z) :
  Forall (fun f : frame => m <= Z.of_nat (List.length f)
                           /\ Forall (fun rx => has_fine_timestamp rx = true) f)
    (filterOnFineTimestamp buf m)
  /\ (List.length (filterOnFineTimestamp buf m) <= List.length buf)%nat.
Proof.
  rewrite filterOnFineTimestamp_eq. unfold filter_on_fine_timestamp_spec. split.
  - apply Forall_forall. intros f Hf. apply filter_In in Hf as [Hm Hf].
    split; [apply Z.leb_le, Hf|].
    apply in_map_iff in Hm as [fr [<- _]].
    apply Forall_forall. intros rx Hrx. apply filter_In in Hrx as [_ H]. exact H.
  - eapply Nat.le_trans; [apply filter_length_le|].
    rewrite length_map. apply le_n.
Qed.

(** With [minPerFrame <= 0] no frame is dropped: the output has one frame
    per input frame, possibly empty, holding its timestamped receptions. *)
Theorem filterOnFineTimestamp_nonpositive_min (buf : list frame) (m : Z) :
  m <= 0 -> filterOnFineTimestamp buf m = map (filter has_fine_timestamp) buf.
Proof.
  intros Hm. rewrite filterOnFineTimestamp_eq. unfold filter_on_fine_timestamp_spec.
  induction buf as [|fr buf IH]; [reflexivity|].
  simpl. destruct (Z.leb_spec m (Z.of_nat (List.length (filter has_fine_timestamp fr))));
    [rewrite IH; reflexivity|lia].
Qed.

(** *** base64 decoding *)

Lemma b64_value_range (ch : ascii) (v : Z) : b64_value ch = Some v -> 0 <= v < 64.
Proof.
  intros H.
  destruct ch as [[] [] [] [] [] [] [] []]; vm_compute in H;
    try discriminate H; injection H as <-; lia.
Qed.

Lemma lor_lt_256 (a b : Z) : 0 <= a < 256 -> 0 <= b < 256 -> 0 <= Z.lor a b < 256.
Proof.
  intros Ha Hb. assert (H0 : 0 <= Z.lor a b) by (apply Z.lor_nonneg; lia).
  split; [exact H0|].
  destruct (Z.eq_dec (Z.lor a b) 0) as [->|Hne]; [lia|].
  change 256 with (2 ^ 8). apply Z.log2_lt_pow2; [lia|].
  rewrite Z.log2_lor by lia. apply Z.max_lub_lt.
  - destruct (Z.eq_dec a 0) as [->|]; [reflexivity|].
    apply Z.log2_lt_pow2; [lia|]. change (2 ^ 8) with 256. lia.
  - destruct (Z.eq_dec b 0) as [->|]; [reflexivity|].
    apply Z.log2_lt_pow2; [lia|]. change (2 ^ 8) with 256. lia.
Qed.

Lemma land_255_range (x : Z) : 0 <= Z.land x 255 < 256.
Proof.
  change 255 with (Z.ones 8). rewrite Z.land_ones by lia.
  apply Z.mod_pos_bound. reflexivity.
Qed.

Lemma b64_first_byte_range (va vb : Z) :
  0 <= va < 64 -> 0 <= vb < 64 -> 0 <= Z.lor (Z.shiftl va 2) (Z.shiftr vb 4) < 256.
Proof.
  intros Ha Hb. apply lor_lt_256.
  - rewrite Z.shiftl_mul_pow2 by lia. change (2 ^ 2) with 4. lia.
  - rewrite Z.shiftr_div_pow2 by lia. change (2 ^ 4) with 16.
    split; [apply Z.div_pos; lia|]. apply Z.div_lt_upper_bound; lia.
Qed.

Definition is_byte (x : Z) : Prop := 0 <= x < 256.

Lemma b64_quanta_shape (n : nat) (cs : list ascii) (b : bytes) :
  (List.length cs <= n)%nat ->
  b64_quanta cs = Some b ->
  Forall is_byte b
  /\ exists q, List.length cs = (4 * q)%nat
               /\ (List.length b <= 3 * q)%nat /\ (3 * q <= List.length b + 2)%nat.
Proof.
  induction n as [|n IH] in cs, b |- *; intros Hlen Hq.
  - destruct cs; [|simpl in Hlen; lia].
    injection Hq as <-. split; [constructor|exists 0%nat; simpl; lia].
  - destruct cs as [|a [|b1 [|c [|d rest]]]];
      try (simpl in Hq; discriminate Hq).
    + injection Hq as <-. split; [constructor|exists 0%nat; simpl; lia].
    + simpl in Hq.
      destruct (b64_value a) as [va|] eqn:Ha; [|discriminate].
      destruct (b64_value b1) as [vb|] eqn:Hb; [|discriminate].
      apply b64_value_range in Ha. apply b64_value_range in Hb.
      pose proof (b64_first_byte_range va vb Ha Hb) as H0.
      assert (Hgen :
                 match b64_value c, b64_value d, b64_quanta rest with
                 | Some vc, Some vd, Some tl => Some (Z.lor (Z.shiftl va 2) (Z.shiftr vb 4)
                     :: Z.land (Z.lor (Z.shiftl vb 4) (Z.shiftr vc 2)) 255
                     :: Z.land (Z.lor (Z.shiftl vc 6) vd) 255 :: tl)
                 | _, _, _ => None
                 end = Some b ->
                 Forall is_byte b
                 /\ exists q, List.length (a :: b1 :: c :: d :: rest) = (4 * q)%nat
                    /\ (List.length b <= 3 * q)%nat /\ (3 * q <= List.length b + 2)%nat).
      { intros H.
        destruct (b64_value c) as [vc|]; [|discriminate].
        destruct (b64_value d) as [vd|]; [|discriminate].
        destruct (b64_quanta rest) as [tl|] eqn:Hr; [|discriminate].
        injection H as <-.
        destruct (IH rest tl) as [Hb' [q [Hq1 [Hq2 Hq3]]]];
          [simpl in Hlen; lia|exact Hr|].
        split.
        - constructor; [apply H0|constructor; [apply land_255_range|constructor; [apply land_255_range|exact Hb']]].
        - exists (S q). simpl. lia. }
      destruct rest as [|r rest'].
      * destruct (is_pad c), (is_pad d);
          try (apply Hgen; exact Hq).
        -- injection Hq as <-. split; [constructor; [apply H0|constructor]|].
           exists 1%nat. simpl. lia.
        -- destruct (b64_value c) as [vc|]; [|discriminate].
           injection Hq as <-.
           split; [constructor; [apply H0|constructor; [apply land_255_range|constructor]]|].
           exists 1%nat. simpl. lia.
      * apply Hgen; exact Hq.
Qed.

(** A successful decode: every decoded value is a byte (0..255), the
    input holds 4q characters once line breaks are skipped, and the output
    has between 3q - 2 and 3q bytes. *)
Theorem base64_decode_shape (s : string) (b : bytes) :
  base64_decode s = Some b ->
  Forall (fun x => 0 <= x < 256) b
  /\ exists q,
       List.length
         (filter (fun ch => negb (Ascii.eqb ch (ascii_of_nat 10) || Ascii.eqb ch (ascii_of_nat 13)))
            (list_ascii_of_string s)) = (4 * q)%nat
       /\ (List.length b <= 3 * q)%nat /\ (3 * q <= List.length b + 2)%nat.
Proof.
  unfold base64_decode. intros H.
  exact (b64_quanta_shape _ _ b (le_n _) H).
Qed.

(** *** The object extractors *)

Lemma wifiAccessPointsOfList_ok (l : list json) (aps : list WifiAccessPoint) :
  wifiAccessPointsOfList l = ok aps <->
  Forall2 (fun a ap => wifiAccessPointOfJSON a = ok ap) l aps.
Proof.
  induction l as [|a l IH] in aps |- *; simpl.
  - split; [intros H; injection H as <-; constructor|intros H; inversion H; reflexivity].
  - destruct (wifiAccessPointOfJSON a) as [ap|e] eqn:Ha.
    + destruct (wifiAccessPointsOfList l) as [out|e] eqn:Hl.
      * split.
        -- intros H. injection H as <-. constructor; [exact Ha|apply IH; reflexivity].
        -- intros H. inversion H as [|? ap' ? out' Hap Hrest]; subst.
           rewrite Ha in Hap. injection Hap as ->.
           apply IH in Hrest. injection Hrest as ->. reflexivity.
      * split; [discriminate|].
        intros H. inversion H as [|? ap' ? out' Hap Hrest]; subst.
        apply IH in Hrest. discriminate.
    + split; [discriminate|].
      intros H. inversion H as [|? ap' ? out' Hap Hrest]; subst. congruence.
Qed.

(** The WiFi extractor on a decoded object succeeds exactly when the field
    is absent (no access points) or is an array whose every entry parses;
    the result then has one access point per entry, in order. *)
Theorem getWifiAccessPoints_all_or_nothing (field : string) (m : list (string * json))
  (aps : list WifiAccessPoint) :
  getWifiAccessPointsFromJSONObject field (ObjectDecoded m) = ok aps <->
  (map_lookup field m = None /\ aps = [])
  \/ (exists l, map_lookup field m = Some (JArray l)
        /\ Forall2 (fun a ap => wifiAccessPointOfJSON a = ok ap) l aps).
Proof.
  unfold getWifiAccessPointsFromJSONObject.
  destruct (map_lookup field m) as [[| | | | l |]|]; simpl;
    try (split; [discriminate|intros [[H _]|[l' [H _]]]; discriminate]).
  - rewrite wifiAccessPointsOfList_ok. split.
    + intros H. right. exists l. auto.
    + intros [[H _]|[l' [H H']]]; [discriminate|injection H as <-; exact H'].
  - split.
    + intros H. injection H as <-. left. auto.
    + intros [[_ ->]|[l' [H _]]]; [reflexivity|discriminate].
Qed.

(** The access-point list fails with the error of its first entry that
    does not parse. *)
Theorem wifiAccessPointsOfList_first_error (l : list json) (e : error) :
  wifiAccessPointsOfList l = err e <->
  exists pre a post aps,
    l = pre ++ a :: post
    /\ Forall2 (fun a ap => wifiAccessPointOfJSON a = ok ap) pre aps
    /\ wifiAccessPointOfJSON a = err e.
Proof.
  induction l as [|a l IH]; simpl.
  - split; [discriminate|].
    intros [pre [a [post [aps [H _]]]]]. destruct pre; discriminate.
  - destruct (wifiAccessPointOfJSON a) as [ap|e0] eqn:Ha.
    + destruct (wifiAccessPointsOfList l) as [out|e1] eqn:Hl.
      * split; [discriminate|].
        intros [pre [a' [post [aps [Hl' [Hpre Ha']]]]]].
        destruct pre as [|p pre]; simpl in Hl'; injection Hl' as -> ->; [congruence|].
        assert (Hex : ok out = err e)
          by (apply IH; inversion Hpre; subst; eauto 10).
        discriminate.
      * split.
        -- intros H. injection H as <-.
           destruct (proj1 IH eq_refl) as [pre [a' [post [aps [-> [Hpre Ha']]]]]].
           exists (a :: pre), a', post, (ap :: aps). split; [reflexivity|].
           split; [constructor; assumption|exact Ha'].
        -- intros [pre [a' [post [aps [Hl' [Hpre Ha']]]]]].
           destruct pre as [|p pre]; simpl in Hl'; injection Hl' as -> ->; [congruence|].
           inversion Hpre as [|? ? ? aps' _ Hpre']; subst.
           assert (Hex : err e1 = err e) by (apply IH; eauto 10).
           exact Hex.
    + split.
      * intros H. injection H as <-. exists [], a, l, []. auto.
      * intros [pre [a' [post [aps [Hl' [Hpre Ha']]]]]].
        destruct pre as [|p pre]; simpl in Hl'; injection Hl' as -> ->; [congruence|].
        inversion Hpre; subst. congruence.
Qed.

Lemma go_copy_length (dst src : list Z) : List.length (go_copy dst src) = List.length dst.
Proof.
  induction dst as [|d ds IH] in src |- *; destruct src; simpl; auto.
Qed.



(** The GNSS extractor: an empty object string or an absent field gives no
    bytes; otherwise it succeeds exactly when the field is a string that
    base64-decodes, with the decoded bytes. *)
Theorem getBytesFromJSONObject_cases (field : string) (o : object_json) (b : bytes) :
  getBytesFromJSONObject field o = ok b <->
  (o = ObjectEmpty /\ b = [])
  \/ (exists m, o = ObjectDecoded m /\ map_lookup field m = None /\ b = [])
  \/ (exists m s, o = ObjectDecoded m /\ map_lookup field m = Some (JString s)
                  /\ base64_decode s = Some b).
Proof.
  unfold getBytesFromJSONObject.
  destruct o as [|r|m].
  - split; [intros H; injection H as <-; left; auto|].
    intros [[_ ->]|[[m [H _]]|[m [s [H _]]]]]; [reflexivity|discriminate|discriminate].
  - split; [discriminate|].
    intros [[H _]|[[m [H _]]|[m [s [H _]]]]]; discriminate.
  - destruct (map_lookup field m) as [[| | |s| |]|] eqn:Hm;
      try (split; [discriminate|];
           intros [[H _]|[[m' [H [H' _]]]|[m' [s' [H [H' _]]]]]];
           try discriminate; injection H as <-; congruence).
    + destruct (base64_decode s) as [b'|] eqn:Hb.
      * split.
        -- intros H. injection H as <-. right. right. eauto.
        -- intros [[H _]|[[m' [H [H' _]]]|[m' [s' [H [H' H'']]]]]]; [discriminate| |].
           ++ injection H as <-. congruence.
           ++ injection H as <-. rewrite Hm in H'. injection H' as <-. congruence.
      * split; [discriminate|].
        intros [[H _]|[[m' [H [H' _]]]|[m' [s' [H [H' H'']]]]]]; [discriminate| |].
        -- injection H as <-. congruence.
        -- injection H as <-. rewrite Hm in H'. injection H' as <-. congruence.
    + split.
      * intros H. injection H as <-. right. left. eauto.
      * intros [[H _]|[[m' [H [H' ->]]]|[m' [s' [H [H' _]]]]]]; [discriminate|reflexivity|].
        injection H as <-. congruence.
Qed.



(** *** The uplink handler *)

(** The handler stores under one key only: an uplink leaves every other
    key of the store as it was. *)
Theorem HandleUplinkEvent_other_keys c E pl w (k : bytes) :
  k <> eui64_of (UplinkEvent.DevEui pl) ->
  kv (snd (HandleUplinkEvent c E pl w)) k = kv w k.
Proof.
  intros Hk. rewrite HandleUplinkEvent_kv.
  destruct (Geolocation c); [|reflexivity].
  rewrite updateGeolocBuffer_run. cbv zeta.
  destruct (get_error E); [reflexivity|].
  destruct (updated_buffer c w (eui64_of (UplinkEvent.DevEui pl)) pl); [reflexivity|].
  destruct (save_error E); [reflexivity|].
  simpl. unfold kv_set.
  destruct (list_eq_dec Z.eq_dec k (eui64_of (UplinkEvent.DevEui pl))); [contradiction|reflexivity].
Qed.




Lemma filter_buffer_events (p : io_event -> bool) (l : list io_event) :
  (forall ev, is_buffer_event ev = true -> p ev = false) ->
  (forall ev, In ev l -> is_buffer_event ev = true) ->
  filter p l = [].
Proof.
  intros Hp Hl. induction l as [|a l IH]; [reflexivity|]. simpl.
  rewrite (Hp a (Hl a (or_introl eq_refl))).
  apply IH. intros ev Hin. apply Hl. right. exact Hin.
Qed.

Lemma resolve_not_buffer ev : is_buffer_event ev = true -> is_resolve_event ev = false.
Proof. destruct ev; simpl; congruence. Qed.

Lemma location_not_buffer ev : is_buffer_event ev = true -> is_location_event ev = false.
Proof. destruct ev; simpl; congruence. Qed.

(** One uplink makes at most one resolver request and hands at most one
    location event to the sink. *)
Theorem uplink_at_most_one_request c E pl w :
  (List.length (filter is_resolve_event (uplink_events c E pl w)) <= 1)%nat
  /\ (List.length (filter is_location_event (uplink_events c E pl w)) <= 1)%nat.
Proof.
  destruct (Geolocation c) eqn:Hg;
    [|rewrite uplink_events_disabled by exact Hg; simpl; lia].
  destruct (updateGeolocBuffer c E (eui64_of (UplinkEvent.DevEui pl)) pl w)
    as [[buf|e] w1] eqn:Hu.
  - destruct (uplink_events_ok c E pl w buf w1 Hg Hu) as [pre [Hpre ->]].
    rewrite !filter_app, (filter_buffer_events _ _ resolve_not_buffer Hpre),
      (filter_buffer_events _ _ location_not_buffer Hpre).
    simpl. unfold selection_events.
    destruct (select_strategy c buf pl) as [msg| |s]; simpl; [lia|lia|].
    destruct (outcome s (resolve E (request_for s c buf pl))) as [[l|]|e]; simpl; [|lia|lia].
    destruct (sink E _); simpl; lia.
  - pose proof (uplink_events_update_err c E pl w e w1 Hg Hu) as Hb.
    rewrite (filter_buffer_events _ _ resolve_not_buffer Hb),
      (filter_buffer_events _ _ location_not_buffer Hb).
    simpl. lia.
Qed.

Lemma outcome_some (s : strategy) (r : Location.t * option error) (l : Location.t) :
  outcome s r = ok (Some l) -> l = fst r.
Proof.
  destruct r as [loc [e|]]; destruct s; simpl;
    try (destruct (is_ErrNoLocation e)); intros H; inversion H; reflexivity.
Qed.

(** The location event handed to the sink copies the uplink's application
    id and name, device name, DevEui (all its bytes, not the 8-byte key)
    and tags, and carries the location the resolver answered to a request
    of the same uplink. *)
Theorem location_event_contents c E pl w ev :
  In (EvHandleLocationEvent ev) (uplink_events c E pl w) ->
  LocationEvent.ApplicationId ev = UplinkEvent.ApplicationId pl
  /\ LocationEvent.ApplicationName ev = UplinkEvent.ApplicationName pl
  /\ LocationEvent.DeviceName ev = UplinkEvent.DeviceName pl
  /\ LocationEvent.DevEui ev = UplinkEvent.DevEui pl
  /\ LocationEvent.Tags ev = UplinkEvent.Tags pl
  /\ exists req, In (EvResolve req) (uplink_events c E pl w)
                 /\ LocationEvent.Location ev = Some (fst (resolve E req)).
Proof.
  intros Hin.
  destruct (Geolocation c) eqn:Hg;
    [|rewrite uplink_events_disabled in Hin by exact Hg; contradiction].
  destruct (updateGeolocBuffer c E (eui64_of (UplinkEvent.DevEui pl)) pl w)
    as [[buf|e] w1] eqn:Hu;
    [|apply (uplink_events_update_err c E pl w e w1 Hg Hu) in Hin; discriminate].
  destruct (uplink_events_ok c E pl w buf w1 Hg Hu) as [pre [Hpre Hev]].
  rewrite Hev in Hin |- *.
  apply in_app_or in Hin as [Hin|Hin]; [apply Hpre in Hin; discriminate|].
  unfold selection_events in Hin.
  destruct (select_strategy c buf pl) as [msg| |s] eqn:Hsel; simpl in Hin;
    [destruct Hin as [H|[]]; discriminate|contradiction|].
  destruct (outcome s (resolve E (request_for s c buf pl))) as [[l|]|e] eqn:Ho;
    simpl in Hin; try (destruct Hin as [H|[]]; discriminate).
  destruct Hin as [H|[H|Hin]]; [discriminate|injection H as <-|].
  2:{ destruct (sink E _); simpl in Hin; [destruct Hin as [H|[]]; discriminate|contradiction]. }
  apply outcome_some in Ho.
  repeat split.
  exists (request_for s c buf pl). split.
  - apply in_or_app. right. left. reflexivity.
  - simpl. rewrite Ho. reflexivity.
Qed.

(** *** Instances of the properties above at concrete inputs *)

Lemma filterOnFineTimestamp_nonpositive_min_witness :
  filterOnFineTimestamp [rx3_two_ts; rx3] 0 = map (filter has_fine_timestamp) [rx3_two_ts; rx3].
Proof. apply filterOnFineTimestamp_nonpositive_min. lia. Defined.

Lemma base64_decode_shape_witness :
  Forall (fun x => 0 <= x < 256) [1; 2; 3; 4]
  /\ exists q,
       List.length
         (filter (fun ch => negb (Ascii.eqb ch (ascii_of_nat 10) || Ascii.eqb ch (ascii_of_nat 13)))
            (list_ascii_of_string "AQIDBA==")) = (4 * q)%nat
       /\ (List.length [1; 2; 3; 4] <= 3 * q)%nat /\ (3 * q <= List.length [1; 2; 3; 4] + 2)%nat.
Proof. apply base64_decode_shape. vm_compute. reflexivity. Defined.


Lemma HandleUplinkEvent_other_keys_witness :
  kv (snd (HandleUplinkEvent (cfg 60 2 true false false false)
             (env_answer (resolver_fix GEO_RESOLVER_TDOA, None))
             (test_uplink rx3 ObjectEmpty) world_old)) [9; 9; 9; 9; 9; 9; 9; 9]
  = kv world_old [9; 9; 9; 9; 9; 9; 9; 9].
Proof. apply HandleUplinkEvent_other_keys. vm_compute. discriminate. Defined.


Lemma location_event_contents_witness :
  LocationEvent.ApplicationId (test_location_event (resolver_fix GEO_RESOLVER_TDOA) [[1]; [2]; [3]] 0)
    = UplinkEvent.ApplicationId (test_uplink rx3 ObjectEmpty)
  /\ LocationEvent.ApplicationName (test_location_event (resolver_fix GEO_RESOLVER_TDOA) [[1]; [2]; [3]] 0)
       = UplinkEvent.ApplicationName (test_uplink rx3 ObjectEmpty)
  /\ LocationEvent.DeviceName (test_location_event (resolver_fix GEO_RESOLVER_TDOA) [[1]; [2]; [3]] 0)
       = UplinkEvent.DeviceName (test_uplink rx3 ObjectEmpty)
  /\ LocationEvent.DevEui (test_location_event (resolver_fix GEO_RESOLVER_TDOA) [[1]; [2]; [3]] 0)
       = UplinkEvent.DevEui (test_uplink rx3 ObjectEmpty)
  /\ LocationEvent.Tags (test_location_event (resolver_fix GEO_RESOLVER_TDOA) [[1]; [2]; [3]] 0)
       = UplinkEvent.Tags (test_uplink rx3 ObjectEmpty)
  /\ exists req,
       In (EvResolve req)
         (uplink_events (cfg 0 0 true false false false)
            (env_answer (resolver_fix GEO_RESOLVER_TDOA, None)) (test_uplink rx3 ObjectEmpty) world0)
       /\ LocationEvent.Location (test_location_event (resolver_fix GEO_RESOLVER_TDOA) [[1]; [2]; [3]] 0)
          = Some (fst (resolve (env_answer (resolver_fix GEO_RESOLVER_TDOA, None)) req)).
Proof.
  apply location_event_contents. vm_compute. right. right. right. left. reflexivity.
Defined.
